(** * Waitlist registration bot: a shallow embedding and its properties

    The development follows [bot.py], [database.py] and [strings/en.py]:

    - [PyStr]      Python [str] values as lists of code points, with the
                   string methods the bot calls ([strip], [lower], [in],
                   [join], [str(int)]);
    - [Normalizer] [USERNAME_RE] and [normalize_username];
    - [Exc]        exception objects and [isinstance];
    - [Wrapper]    the [catch_telegram_errors] decorator;
    - [strings]    the texts of [strings/en.py];
    - [Db]         the two tables of [database.py] and the session
                   operations the bot performs on them;
    - [Password]   [generate_password];
    - [Bot]        the body of the [for update in updates] loop of [main],
                   in a state-and-exception monad over the process state;
    - [Html]       [telegram_html_escape] and [str.replace];
    - [Observe]    what is observed of a run: addressees, waits, rows;
    - [Scenario], [Cases]  concrete updates and states.

    The properties follow the definitions, in the same order. *)

From Stdlib Require Import ZArith List Ascii String Decimal.
From stdpp Require Import base list gmap sorting.

Local Open Scope Z_scope.

(** ** Python strings *)

Module PyStr.

(** A [str] is a sequence of Unicode code points. *)
Abbreviation pystr := (list Z).

(** A literal whose characters are all ASCII. *)
Definition py (s : string) : pystr :=
  map (fun a : ascii => Z.of_N (N_of_ascii a)) (list_ascii_of_string s).
Arguments py s%_string.

Definition in_range (lo hi c : Z) : bool := (lo <=? c) && (c <=? hi).

(** [str.isspace] on one code point: the white space table of CPython. *)
Definition isspace (c : Z) : bool :=
  in_range 0x09 0x0D c || in_range 0x1C 0x20 c || (c =? 0x85) || (c =? 0xA0)
  || (c =? 0x1680) || in_range 0x2000 0x200A c || (c =? 0x2028)
  || (c =? 0x2029) || (c =? 0x202F) || (c =? 0x205F) || (c =? 0x3000).

Fixpoint lstrip (s : pystr) : pystr :=
  match s with
  | c :: s' => if isspace c then lstrip s' else s
  | [] => []
  end.

Definition rstrip (s : pystr) : pystr := rev (lstrip (rev s)).

(** [s.strip()] *)
Definition strip (s : pystr) : pystr := rstrip (lstrip s).

(** [s.lower()].  The case mapping is the ASCII one; code points outside
    ASCII are left as they are.  The bot lowers only the group matched by
    [USERNAME_RE] (ASCII by construction) and an error text that is then
    searched for an ASCII phrase none of whose letters is the lower case of
    a non-ASCII code point. *)
Definition lower_cp (c : Z) : Z := if in_range 65 90 c then c + 32 else c.
Definition lower (s : pystr) : pystr := map lower_cp s.

Fixpoint startswith (p s : pystr) : bool :=
  match p, s with
  | [], _ => true
  | a :: p', b :: s' => (a =? b) && startswith p' s'
  | _ :: _, [] => false
  end.

(** [p in s] *)
Fixpoint contains (p s : pystr) : bool :=
  startswith p s ||
  match s with
  | [] => false
  | _ :: s' => contains p s'
  end.

(** [sep.join(parts)] *)
Fixpoint join (sep : pystr) (parts : list pystr) : pystr :=
  match parts with
  | [] => []
  | [p] => p
  | p :: rest => p ++ sep ++ join sep rest
  end.

Fixpoint uint_cps (d : Decimal.uint) : pystr :=
  match d with
  | Nil => []
  | D0 d => 48 :: uint_cps d
  | D1 d => 49 :: uint_cps d
  | D2 d => 50 :: uint_cps d
  | D3 d => 51 :: uint_cps d
  | D4 d => 52 :: uint_cps d
  | D5 d => 53 :: uint_cps d
  | D6 d => 54 :: uint_cps d
  | D7 d => 55 :: uint_cps d
  | D8 d => 56 :: uint_cps d
  | D9 d => 57 :: uint_cps d
  end.

(** [str(n)] for a natural number [n] *)
Definition str_of_nat (n : nat) : pystr := uint_cps (Nat.to_uint n).

End PyStr.
Import PyStr.

(** ** [normalize_username] *)

Module Normalizer.

Definition is_alpha (c : Z) : bool := in_range 97 122 c || in_range 65 90 c.
Definition is_digit (c : Z) : bool := in_range 48 57 c.

(** The class [[a-zA-Z0-9_]] *)
Definition is_word (c : Z) : bool := is_alpha c || is_digit c || (c =? 95).

(** [$] without [re.MULTILINE]: the end of the string, or just before a
    line feed that ends it. *)
Definition at_end (s : pystr) : bool :=
  match s with
  | [] => true
  | [c] => c =? 10
  | _ => false
  end.

(** [[a-zA-Z0-9_]{lo,hi}$], greedy: one more character is tried first and
    the match falls back to stopping here.  Returns the text matched by the
    repetition. *)
Fixpoint word_rep (lo hi : nat) (s : pystr) : option pystr :=
  let stop := if (lo =? 0)%nat && at_end s then Some [] else None in
  match hi, s with
  | S hi', c :: s' =>
      if is_word c then
        match word_rep (Nat.pred lo) hi' s' with
        | Some m => Some (c :: m)
        | None => stop
        end
      else stop
  | _, _ => stop
  end.

(** [([a-zA-Z][a-zA-Z0-9_]{4,31})$]; returns group 1. *)
Definition group_1 (s : pystr) : option pystr :=
  match s with
  | c :: s' => if is_alpha c then cons c <$> word_rep 4 31 s' else None
  | [] => None
  end.

(** [USERNAME_RE.match(s)], as [m.group(1)] when there is a match.
    [^@?]: the marker is consumed when present, and the match is retried
    without consuming it when the rest fails. *)
Definition USERNAME_RE_match (s : pystr) : option pystr :=
  match s with
  | c :: s' =>
      if c =? 64 then
        match group_1 s' with
        | Some g => Some g
        | None => group_1 s
        end
      else group_1 s
  | [] => group_1 s
  end.

Definition normalize_username (raw : pystr) : option pystr :=
  let raw := strip raw in
  match raw with
  | [] => None
  | _ =>
      match USERNAME_RE_match raw with
      | None => None
      | Some name => Some (64 :: lower name)
      end
  end.

(** The contract in the words of the specification: the text after the
    optional marker starts with a letter, has 5 to 32 characters in all,
    and is drawn from letters, digits and underscore. *)
Definition valid_handle (name : pystr) : Prop :=
  (exists c rest, name = c :: rest /\ is_alpha c = true)
  /\ (5 <= length name <= 32)%nat
  /\ Forall (fun c => is_word c = true) name.

Definition accepted (raw result : pystr) : Prop :=
  exists name,
    (strip raw = name \/ strip raw = 64 :: name)
    /\ valid_handle name
    /\ result = 64 :: lower name.

End Normalizer.
Import Normalizer.


(** ** Python exceptions *)

Module Exc.

(** The exception classes the bot names or can meet. *)
Inductive ExcClass :=
  | Exception
  | ValueError
  | AttributeError
  | IntegrityError
  | TelegramError
  | Unauthorized
  | RetryAfter
  | TimedOut
  | NetworkError
  | BadRequest.

#[global] Instance ExcClass_eq_dec : EqDecision ExcClass.
Proof. solve_decision. Defined.

(** An exception object: the classes it is an instance of (its own class
    and all its bases), [str(e)], and the [retry_after] attribute when it
    has one. *)
Record PyExc := {
  exc_classes : list ExcClass;
  exc_str : pystr;
  exc_retry_after : option N
}.

(** [except C] catches [e] when [isinstance(e, C)]. *)
Definition isinstance (e : PyExc) (C : ExcClass) : bool :=
  bool_decide (C ∈ exc_classes e).

(** Exceptions of [telegram.error], with the bases the library gives
    them: [BadRequest] and [TimedOut] derive from [NetworkError]. *)
Definition unauthorized (msg : pystr) : PyExc :=
  {| exc_classes := [Unauthorized; TelegramError; Exception];
     exc_str := msg; exc_retry_after := None |}.
Definition retry_after (seconds : N) : PyExc :=
  {| exc_classes := [RetryAfter; TelegramError; Exception];
     exc_str := py "Flood control exceeded"; exc_retry_after := Some seconds |}.
Definition timed_out : PyExc :=
  {| exc_classes := [TimedOut; NetworkError; TelegramError; Exception];
     exc_str := py "Timed out"; exc_retry_after := None |}.
Definition network_error (msg : pystr) : PyExc :=
  {| exc_classes := [NetworkError; TelegramError; Exception];
     exc_str := msg; exc_retry_after := None |}.
Definition bad_request (msg : pystr) : PyExc :=
  {| exc_classes := [BadRequest; NetworkError; TelegramError; Exception];
     exc_str := msg; exc_retry_after := None |}.
Definition telegram_error (msg : pystr) : PyExc :=
  {| exc_classes := [TelegramError; Exception];
     exc_str := msg; exc_retry_after := None |}.

(** Exceptions from outside [telegram.error]. *)
Definition value_error (msg : pystr) : PyExc :=
  {| exc_classes := [ValueError; Exception];
     exc_str := msg; exc_retry_after := None |}.
Definition attribute_error (msg : pystr) : PyExc :=
  {| exc_classes := [AttributeError; Exception];
     exc_str := msg; exc_retry_after := None |}.
Definition integrity_error (msg : pystr) : PyExc :=
  {| exc_classes := [IntegrityError; Exception];
     exc_str := msg; exc_retry_after := None |}.

End Exc.
Import Exc.

(** ** [catch_telegram_errors] *)

Module Wrapper.

Section Wrapper.
Context {V : Type}.

(** One call of the wrapped function. *)
Inductive Outcome :=
  | Returns (v : V)
  | Raises (e : PyExc).

(** What the caller of [wrapper] sees: [return x], [return None], or an
    exception leaving the wrapper. *)
Inductive Final :=
  | Result (v : V)
  | Absent
  | Propagated (e : PyExc).

Definition max_retries : nat := 5.
Definition base_delay : N := 1.

(** [min(base_delay * (2 ** (retry_count - 1)), 30)] *)
Definition backoff (retry_count : nat) : N :=
  N.min (base_delay * 2 ^ N.of_nat (retry_count - 1)) 30.

(** ["chat not found" in err or "not found" in err] *)
Definition not_found (e : PyExc) : bool :=
  let err := lower (exc_str e) in
  contains (py "chat not found") err || contains (py "not found") err.

(** The [while True] loop of [wrapper].  [func call] is what the [call]-th
    invocation of [func] does; [slept] collects the arguments
    of [time.sleep]; [fuel] bounds the number of iterations, and [None]
    means that the bound was reached with the loop still running. *)
Fixpoint wrapper_loop (fuel : nat) (func : nat -> Outcome)
    (call retry_count : nat) (slept : list N) : option (Final * list N) :=
  match fuel with
  | O => None
  | S fuel' =>
      match func call with
      | Returns v => Some (Result v, slept)
      | Raises e =>
          if isinstance e Unauthorized then Some (Absent, slept)
          else if isinstance e RetryAfter then
            let delay := default 10%N (exc_retry_after e) in
            wrapper_loop fuel' func (S call) retry_count (slept ++ [delay])
          else if isinstance e TimedOut || isinstance e NetworkError then
            let retry_count := S retry_count in
            let delay := backoff retry_count in
            if (max_retries <=? retry_count)%nat then Some (Absent, slept)
            else wrapper_loop fuel' func (S call) retry_count (slept ++ [delay])
          else if isinstance e BadRequest then
            if not_found e then Some (Absent, slept)
            else Some (Propagated e, slept)
          else if isinstance e TelegramError then
            let retry_count := S retry_count in
            let delay := backoff retry_count in
            if (max_retries <=? retry_count)%nat then Some (Absent, slept)
            else wrapper_loop fuel' func (S call) retry_count (slept ++ [delay])
          else Some (Propagated e, slept)
      end
  end.

Definition wrapper (fuel : nat) (func : nat -> Outcome) :
    option (Final * list N) :=
  wrapper_loop fuel func 0 0 [].

(** The call is answered with a rate limit. *)
Definition rate_limited (o : Outcome) : Prop :=
  match o with
  | Returns _ => False
  | Raises e => isinstance e RetryAfter = true
  end.

(** The exception is caught by an [except] clause that does not re-raise:
    it is a [TelegramError], and when it arrives at the [BadRequest] clause
    its text says "not found". *)
Definition absorbed (e : PyExc) : Prop :=
  isinstance e TelegramError = true
  /\ (isinstance e BadRequest = true ->
      isinstance e Unauthorized = true \/ isinstance e RetryAfter = true
      \/ isinstance e TimedOut = true \/ isinstance e NetworkError = true
      \/ not_found e = true).

End Wrapper.
Arguments Outcome V : clear implicits.
Arguments Final V : clear implicits.

End Wrapper.
Import Wrapper.

(** ** [strings/en.py] *)

Module strings.

Definition msg_ask_username : pystr :=
  [0x2728] ++ py " What <b>username</b> would you like for our platform?" ++
  [10; 10; 0x1F4DD] ++ py " Use 5" ++ [0x2013] ++
  py "32 characters: letters, numbers, underscore" ++ [10; 0x1F4A1] ++
  py " Example: <code>myusername</code>".

Definition msg_username_taken : pystr :=
  [0x274C] ++ py " That username is already taken." ++ [10; 10; 0x1F449] ++
  py " Please choose another one!".

Definition msg_username_invalid : pystr :=
  [0x26A0; 0xFE0F] ++ py " Invalid username." ++ [10; 10] ++ py "Use 5" ++
  [0x2013] ++ py "32 characters: letters, numbers, underscore only." ++
  [10; 0x1F4A1] ++ py " Example: <code>myusername</code>".

Definition msg_username_forbidden : pystr :=
  [0x1F6AB] ++ py " This username is reserved." ++ [10; 10; 0x1F449] ++
  py " Please choose a different one!".

Definition msg_registered : pystr :=
  [0x1F389] ++ py " You're on the list!" ++ [10; 10; 0x2705] ++
  py " We'll notify you when the platform launches.".

Definition msg_welcome_back : pystr :=
  [0x1F44B] ++ py " Welcome back! You're already on the waitlist.".

Definition msg_coming_soon_btn : pystr :=
  [0x1F680] ++ py " Coming soon".

Definition msg_coming_soon_response : pystr :=
  [0x1F310] ++ py " <b>First .onion marketplace for the whole Balkans " ++
  [0x2014] ++ py " and beyond!</b>" ++ [10; 10] ++
  py "We're almost finished. R" ++
  py "egister ASAP to test our platform with balance bonuses!" ++
  [10; 10; 0x1F4B0] ++ py " <b>Welcome bonus tiers:</b>" ++
  [10; 10; 0x1F947] ++ py " Users 1" ++ [0x2013] ++ py "50 " ++ [0x2192] ++
  py " <b>12 EUR</b> welcome bonus" ++ [10; 0x1F948] ++ py " Users 51" ++
  [0x2013] ++ py "100 " ++ [0x2192] ++ py " <b>5 EUR</b> welcome bonus  " ++
  [10; 0x1F949] ++ py " Users 101+ " ++ [0x2192] ++
  py " <b>1 EUR</b> welcome bonus" ++ [10; 10; 0x26A1] ++
  py " Don't miss out " ++ [0x2014] ++ py " secure your spot now!".

Definition msg_admin_download : pystr :=
  [0x1F4E5] ++ py " Download users .txt file".

Definition msg_file_caption : pystr :=
  [0x1F4CB] ++ py " Waitlist users export (older " ++ [0x2192] ++
  py " newer)".

Definition msg_first_admin : pystr :=
  [0x1F451] ++ py " You're the first user " ++ [0x2014] ++
  py " you're now admin!" ++ [10; 10; 0x1F447] ++
  py " Choose your username below to join the waitlist.".

Definition msg_admin_menu : pystr :=
  [0x1F510] ++ py " <b>Admin menu</b>" ++ [10; 10] ++
  py "Use the keyboard below to manage the waitlist.".

Definition msg_private_only : pystr :=
  [0x1F512] ++
  py " This bot only works in private chats. Please message me directly!".

End strings.

(** ** [database.py]: the tables and the session operations of the bot *)

(** The engine is taken to answer every statement and the user ids to fit
    the [BigInteger] column: a storage failure and an id out of range are
    outside this model. *)

Module Db.

(** A row of [waitlist_entries].  [created_at] is a [DateTime], kept as
    the number of microseconds since the epoch. *)
Record WaitlistEntry := {
  id : Z;
  user_id : Z;
  wanted_username : pystr;
  password : pystr;
  created_at : Z
}.

(** A row of [admins]; its one column is [user_id]. *)
Record Admin := { admin_user_id : Z }.

(** The database: both tables in row order, and the autoincrement
    sequence of [waitlist_entries.id]. *)
Record Store := {
  admins : list Admin;
  waitlist_entries : list WaitlistEntry;
  waitlist_seq : Z
}.

Definition empty : Store :=
  {| admins := []; waitlist_entries := []; waitlist_seq := 0 |}.

(** [session.query(Admin).filter_by(user_id=u).first()] *)
Definition admin_by_user (db : Store) (u : Z) : option Admin :=
  List.find (fun a => admin_user_id a =? u) (admins db).

(** [session.query(WaitlistEntry).filter_by(user_id=u).first()] *)
Definition entry_by_user (db : Store) (u : Z) : option WaitlistEntry :=
  List.find (fun e => user_id e =? u) (waitlist_entries db).

(** [session.query(Admin).count()] *)
Definition admin_count (db : Store) : nat := length (admins db).

(** [session.query(WaitlistEntry)
      .filter(WaitlistEntry.wanted_username == name).first()] *)
Definition entry_by_username (db : Store) (name : pystr)
    : option WaitlistEntry :=
  List.find (fun e => bool_decide (wanted_username e = name))
            (waitlist_entries db).

(** [session.add(Admin(user_id=u)); session.commit()]: the primary key
    [user_id] rejects a second row with the same value. *)
Definition insert_admin (db : Store) (u : Z) : Store + PyExc :=
  match admin_by_user db u with
  | Some _ => inr (integrity_error (py "UNIQUE constraint failed: admins.user_id"))
  | None =>
      inl {| admins := admins db ++ [{| admin_user_id := u |}];
             waitlist_entries := waitlist_entries db;
             waitlist_seq := waitlist_seq db |}
  end.

(** [session.add(WaitlistEntry(user_id=u, wanted_username=name,
      password=pw)); session.commit()]: [id] is the next value of the
    sequence, [created_at] defaults to [datetime.utcnow()], and the
    [unique=True] column [wanted_username] rejects a value already in the
    table.  A rejected insert leaves the database as it was. *)
Definition insert_entry (db : Store) (u : Z) (name pw : pystr) (utcnow : Z)
    : Store + PyExc :=
  match entry_by_username db name with
  | Some _ =>
      inr (integrity_error
             (py "UNIQUE constraint failed: waitlist_entries.wanted_username"))
  | None =>
      let row := {| id := waitlist_seq db + 1; user_id := u;
                    wanted_username := name; password := pw;
                    created_at := utcnow |} in
      inl {| admins := admins db;
             waitlist_entries := waitlist_entries db ++ [row];
             waitlist_seq := waitlist_seq db + 1 |}
  end.

Definition created_le (a b : WaitlistEntry) : Prop :=
  created_at a <= created_at b.

#[global] Instance created_le_dec a b : Decision (created_le a b).
Proof. unfold created_le. apply _. Defined.

(** [session.query(WaitlistEntry)
      .order_by(WaitlistEntry.created_at.asc()).all()].  SQL leaves the
    order of rows with equal keys open; here they are sorted by a merge
    sort of the table. *)
Definition order_by_created_at (db : Store) : list WaitlistEntry :=
  merge_sort created_le (waitlist_entries db).

(** Rows committed by other sessions on the same database. *)
Definition committed_elsewhere (rows : list WaitlistEntry) (db : Store)
    : Store :=
  {| admins := admins db;
     waitlist_entries := waitlist_entries db ++ rows;
     waitlist_seq := waitlist_seq db + Z.of_nat (length rows) |}.

(** The operations a session performs, for the access log. *)
Inductive SqlOp :=
  | OpenSession
  | SelectAdminByUser (u : Z)
  | SelectEntryByUser (u : Z)
  | CountAdmins
  | InsertAdmin (u : Z)
  | SelectEntryByUsername (name : pystr)
  | InsertEntry (u : Z) (name : pystr)
  | SelectEntriesOrdered
  | CloseSession.

End Db.
Import Db.

(** ** [generate_password] *)

Module Password.

(** [string.ascii_letters + string.digits + "!@#$%^&*"] *)
Definition chars : pystr :=
  py "abcdefghijklmnopqrstuvwxyzABCDEFGHIJKLMNOPQRSTUVWXYZ0123456789!@#$%^&*".

(** [draw i] is the number the system's random source yields for the
    [i]-th [secrets.choice(chars)], which indexes [chars] with it. *)
Definition generate_password (draw : nat -> nat) (length : nat) : pystr :=
  map (fun i => nth (draw i mod List.length chars) chars 0) (seq 0 length).

End Password.

(** ** [main]: processing one update *)

Module Bot.

(** [telegram.Chat.type] *)
Inductive ChatType := private | group | supergroup | channel.

#[global] Instance ChatType_eq_dec : EqDecision ChatType.
Proof. solve_decision. Defined.

(** The fields of [update.message] that [main] reads: [chat.id],
    [chat.type], [from_user] (its [id], when there is a sender) and
    [text]. *)
Record Message := {
  chat_id : Z;
  chat_type : ChatType;
  from_user : option Z;
  text : option pystr
}.

Record Update := {
  update_id : Z;
  message : option Message
}.

(** [telegram.ReplyKeyboardMarkup]: rows of button labels. *)
Abbreviation ReplyKeyboardMarkup := (list (list pystr)).

Definition user_keyboard : ReplyKeyboardMarkup := [[strings.msg_coming_soon_btn]].
Definition admin_keyboard : ReplyKeyboardMarkup := [[strings.msg_admin_download]].

(** The calls [main] makes on [bot] inside the loop.  [document] holds the
    text whose UTF-8 encoding fills the [BytesIO] buffer. *)
Inductive ApiCall :=
  | send_message (chat : Z) (text : pystr)
                 (reply_markup : option ReplyKeyboardMarkup)
  | send_document (chat : Z) (document : pystr) (filename : pystr)
                  (caption : pystr).

(** The process state the loop body works on: the database, the
    [user_states] dict, the calls made on [bot] so far and the log of
    session operations. *)
Record World := {
  db : Store;
  user_states : gmap Z pystr;
  sent : list ApiCall;
  sql : list SqlOp
}.

(** The calls made on [bot] between the states [w] and [w']. *)
Definition calls_since (w w' : World) : list ApiCall :=
  drop (length (sent w)) (sent w').

(** The state [main] enters its loop with, on an empty database. *)
Definition initial : World :=
  {| db := Db.empty; user_states := ∅; sent := []; sql := [] |}.

(** What the environment supplies while one update is processed: the
    reading of [datetime.utcnow()] and the draws of the random source. *)
Record Env := {
  utcnow : Z;
  draw : nat -> nat
}.

(** *** The monad: state, and exceptions that unwind *)

Inductive Res (A : Type) :=
  | Ok (a : A)
  | Exn (e : PyExc).
Arguments Ok {A} a.
Arguments Exn {A} e.

Definition M (A : Type) : Type := World -> Res A * World.

Definition ret {A} (a : A) : M A := fun w => (Ok a, w).

Definition bind {A B} (m : M A) (k : A -> M B) : M B :=
  fun w =>
    match m w with
    | (Ok a, w') => k a w'
    | (Exn e, w') => (Exn e, w')
    end.

Definition raise {A} (e : PyExc) : M A := fun w => (Exn e, w).

(** [try: body finally: cleanup] *)
Definition try_finally {A} (body : M A) (cleanup : M unit) : M A :=
  fun w =>
    match body w with
    | (r, w') =>
        match cleanup w' with
        | (Ok _, w'') => (r, w'')
        | (Exn e, w'') => (Exn e, w'')
        end
    end.

#[global] Instance M_ret : MRet M := @ret.
#[global] Instance M_bind : MBind M := fun A B k m => bind m k.

Definition get_db : M Store := fun w => (Ok (db w), w).

Definition put_db (d : Store) : M unit :=
  fun w => (Ok tt, {| db := d; user_states := user_states w;
                      sent := sent w; sql := sql w |}).

Definition log_sql (op : SqlOp) : M unit :=
  fun w => (Ok tt, {| db := db w; user_states := user_states w;
                      sent := sent w; sql := sql w ++ [op] |}).

Definition awaiting_username : pystr := py "awaiting_username".

(** [user_states.get(chat)] *)
Definition state_get (chat : Z) : M (option pystr) :=
  fun w => (Ok (user_states w !! chat), w).

(** [user_states.pop(chat, None)] *)
Definition state_pop (chat : Z) : M unit :=
  fun w => (Ok tt, {| db := db w; user_states := delete chat (user_states w);
                      sent := sent w; sql := sql w |}).

(** [user_states[chat] = v] *)
Definition state_set (chat : Z) (v : pystr) : M unit :=
  fun w => (Ok tt, {| db := db w; user_states := <[chat := v]> (user_states w);
                      sent := sent w; sql := sql w |}).

(** Other sessions commit [rows] to the database. *)
Definition others_commit (rows : list WaitlistEntry) : M unit :=
  d ← get_db; put_db (committed_elsewhere rows d).

(** A store operation that either commits a new database or raises. *)
Definition commit (r : Store + PyExc) : M unit :=
  match r with
  | inl d => put_db d
  | inr e => raise e
  end.

Section Loop.

(** The decorated methods of [WaitlistBot], as [main] meets them:
    [api n c] is [None] when the [n]-th call made on [bot], [c], returns
    (a result or [None]; [main] ignores which), and [Some e] when it lets
    the exception [e] through. *)
Variable api : nat -> ApiCall -> option PyExc.

Definition call (c : ApiCall) : M unit :=
  fun w =>
    let w' := {| db := db w; user_states := user_states w;
                 sent := sent w ++ [c]; sql := sql w |} in
    match api (length (sent w)) c with
    | None => (Ok tt, w')
    | Some e => (Exn e, w')
    end.

(** The [for i, e in enumerate(entries, 1)] loop, which appends one line
    per entry to [lines]. *)
Fixpoint export_lines (i : nat) (entries : list WaitlistEntry)
    (lines : list pystr) : list pystr :=
  match entries with
  | [] => lines
  | e :: rest =>
      export_lines (S i) rest
        (lines ++ [str_of_nat i ++ py ". " ++ wanted_username e
                   ++ py " " ++ password e])
  end.

(** The body of [try:] for a message from a private chat.  Each
    [continue] of the source ends the branch it stands in.  [concurrent]
    are the rows other sessions commit between this session's uniqueness
    query and its insert. *)
Definition dispatch (concurrent : list WaitlistEntry) (env : Env)
    (chat : Z) (from_user : option Z) (text : pystr) : M unit :=
  uid ← match from_user with
         | Some u => ret u
         | None =>
             raise (attribute_error
                      (py "'NoneType' object has no attribute 'id'"))
         end;
  d ← get_db;
  log_sql (SelectAdminByUser uid) ;;
  let is_admin := bool_decide (is_Some (admin_by_user d uid)) in
  log_sql (SelectEntryByUser uid) ;;
  let entry := entry_by_user d uid in
  if bool_decide (text = py "/start") then
    state_pop chat ;;
    log_sql CountAdmins ;;
    is_admin ←
      (if (admin_count d =? 0)%nat then
         log_sql (InsertAdmin uid) ;;
         commit (insert_admin d uid) ;;
         call (send_message chat strings.msg_first_admin None) ;;
         ret true
       else ret is_admin);
    if is_admin && bool_decide (is_Some entry) then
      call (send_message chat strings.msg_admin_menu (Some admin_keyboard))
    else if bool_decide (is_Some entry) then
      call (send_message chat strings.msg_welcome_back (Some user_keyboard))
    else
      state_set chat awaiting_username ;;
      call (send_message chat strings.msg_ask_username None)
  else if bool_decide (is_Some entry)
          && bool_decide (text = strings.msg_coming_soon_btn) then
    call (send_message chat strings.msg_coming_soon_response None)
  else if is_admin && bool_decide (text = strings.msg_admin_download) then
    log_sql SelectEntriesOrdered ;;
    let entries := order_by_created_at d in
    let lines := export_lines 1 entries [] in
    let content := join [10] lines in
    call (send_document chat content (py "users.txt") strings.msg_file_caption)
  else
    st ← state_get chat;
    if bool_decide (st = Some awaiting_username)
       && negb (bool_decide (text = [])) then
      match normalize_username text with
      | None => call (send_message chat strings.msg_username_invalid None)
      | Some username_norm =>
          log_sql (SelectEntryByUsername username_norm) ;;
          match entry_by_username d username_norm with
          | Some _ => call (send_message chat strings.msg_username_taken None)
          | None =>
              let password := Password.generate_password (draw env) 12 in
              others_commit concurrent ;;
              log_sql (InsertEntry uid username_norm) ;;
              d' ← get_db;
              commit (insert_entry d' uid username_norm password
                        (utcnow env)) ;;
              state_pop chat ;;
              call (send_message chat strings.msg_registered
                      (Some user_keyboard))
          end
      end
    else ret tt.

(** The body of [for update in updates]. *)
Definition handle_update (concurrent : list WaitlistEntry) (env : Env)
    (update : Update) : M unit :=
  match message update with
  | Some m =>
      let chat := chat_id m in
      let text := strip (default [] (text m)) in
      if bool_decide (chat_type m <> private) then
        call (send_message chat strings.msg_private_only None)
      else
        log_sql OpenSession ;;
        try_finally (dispatch concurrent env chat (from_user m) text)
                    (log_sql CloseSession)
  | None => ret tt
  end.

(** The loop over the updates the bot receives, with this process as the
    only writer of the database: each update comes with what the
    environment supplies while it is processed, and an exception that
    leaves the loop body ends [main]. *)
Fixpoint run (inbound : list (Update * Env)) : M unit :=
  match inbound with
  | [] => ret tt
  | (update, env) :: rest => handle_update [] env update ;; run rest
  end.

End Loop.

(** The platform's one-to-one chats: a private chat has the id of the
    user who writes in it. *)
Definition private_chat_of_sender (update : Update) : Prop :=
  forall m, message update = Some m -> chat_type m = private ->
            from_user m = Some (chat_id m).

(** No user has two rows in [waitlist_entries]. *)
Definition one_entry_per_user (w : World) : Prop :=
  NoDup (map user_id (waitlist_entries (db w))).

(** A chat that waits for a handle belongs to a user without a row. *)
Definition awaiting_without_entry (w : World) : Prop :=
  forall chat, user_states w !! chat = Some awaiting_username ->
               entry_by_user (db w) chat = None.

(** The line of the export for the entry at position [k], counted from 0,
    in the words of the specification: ["{index}. {username} {credential}"]
    with a 1-based index. *)
Definition export_line (k : nat) (e : WaitlistEntry) : pystr :=
  str_of_nat (S k) ++ py ". " ++ wanted_username e ++ py " " ++ password e.

End Bot.
Import Bot.

(** ** [telegram_html_escape] *)

Module Html.

(** The scan of [s.replace(old, new)] for a non-empty [old]: occurrences
    are replaced from left to right without overlap; [skip] counts the
    characters of a replaced occurrence still to be passed over. *)
Fixpoint replace_from (old new : pystr) (skip : nat) (s : pystr) : pystr :=
  match s with
  | [] => []
  | c :: s' =>
      match skip with
      | S k => replace_from old new k s'
      | O =>
          if startswith old s then
            new ++ replace_from old new (Nat.pred (length old)) s'
          else c :: replace_from old new 0 s'
      end
  end.

(** [s.replace(old, new)]; an empty [old] matches before every character
    and at the end. *)
Definition replace (old new s : pystr) : pystr :=
  match old with
  | [] => new ++ flat_map (fun c => c :: new) s
  | _ => replace_from old new 0 s
  end.

Definition telegram_html_escape (s : pystr) : pystr :=
  replace [34] (py "&quot;")
    (replace (py "&") (py "&amp;")
       (replace (py ">") (py "&gt;")
          (replace (py "<") (py "&lt;") s))).

(** What the four replacements, in their order, make of one character. *)
Definition escape_char (c : Z) : pystr :=
  if c =? 60 then py "&amp;lt;"
  else if c =? 62 then py "&amp;gt;"
  else if c =? 38 then py "&amp;"
  else if c =? 34 then py "&quot;"
  else [c].

End Html.
Import Html.

(** ** Observations on a run *)

Module Observe.

(** The wait a rate-limited call asks for:
    [getattr(e, "retry_after", 10)]. *)
Definition wait_of {V} (o : Outcome V) : N :=
  match o with
  | Returns _ => 0%N
  | Raises e => default 10%N (exc_retry_after e)
  end.

(** A code point of ASCII; on a text of such [lower] is [str.lower]. *)
Definition is_ascii (c : Z) : Prop := 0 <= c < 128.

(** The back-off sleeps of a call that meets no rate limit. *)
Definition schedule : list N := [1; 2; 4; 8]%N.

(** The chat a call on [bot] is addressed to. *)
Definition call_chat (c : ApiCall) : Z :=
  match c with
  | send_message chat _ _ => chat
  | send_document chat _ _ _ => chat
  end.

(** A row as the registration path writes it: the handle is in normal
    form and the password has 12 characters of [Password.chars]. *)
Definition well_formed (e : WaitlistEntry) : Prop :=
  normalize_username (wanted_username e) = Some (wanted_username e)
  /\ length (password e) = 12%nat
  /\ Forall (fun c => c ∈ Password.chars) (password e).

End Observe.
Import Observe.

(** ** Scenarios *)

Module Scenario.

(** One rate limit with a wait of 3, then success. *)
Definition rate_limited_once (i : nat) : Outcome Z :=
  match i with
  | O => Raises (retry_after 3)
  | _ => Returns 42
  end.

(** Every call on [bot] returns. *)
Definition reliable_api : nat -> ApiCall -> option PyExc := fun _ _ => None.

Definition env_at (t : Z) : Env := {| utcnow := t; draw := fun i => i |}.

(** A text message in a private chat. *)
Definition private_text (chat sender : Z) (t : pystr) : Update :=
  {| update_id := 0;
     message := Some {| chat_id := chat; chat_type := private;
                        from_user := Some sender; text := Some t |} |}.

(** A text message in a group. *)
Definition group_text (chat sender : Z) (t : pystr) : Update :=
  {| update_id := 0;
     message := Some {| chat_id := chat; chat_type := group;
                        from_user := Some sender; text := Some t |} |}.

(** An update without a message, such as a callback query. *)
Definition no_message : Update := {| update_id := 0; message := None |}.

(** One sender, two chat ids: [/start] in both, then a handle in each. *)
Definition two_chats_one_sender : list (Update * Env) :=
  [ (private_text 1 7 (py "/start"), env_at 100);
    (private_text 2 7 (py "/start"), env_at 101);
    (private_text 1 7 (py "alice"), env_at 102);
    (private_text 2 7 (py "bobby"), env_at 103) ].

(** Each sender in the chat that carries their own id. *)
Definition two_senders : list (Update * Env) :=
  [ (private_text 1001 1001 (py "/start"), env_at 100);
    (private_text 1001 1001 (py "/start"), env_at 101);
    (private_text 2002 2002 (py "/start"), env_at 102);
    (private_text 2002 2002 (py "My_Name1"), env_at 103);
    (private_text 3003 3003 (py "/start"), env_at 104);
    (private_text 3003 3003 (py "@my_name1"), env_at 105) ].

Definition row (i u : Z) (name pw : pystr) (t : Z) : WaitlistEntry :=
  {| id := i; user_id := u; wanted_username := name; password := pw;
     created_at := t |}.

(** A chat that waits for a handle, on an empty database with one admin. *)
Definition awaiting (chat : Z) : World :=
  {| db := {| admins := [{| admin_user_id := 1 |}];
              waitlist_entries := []; waitlist_seq := 0 |};
     user_states := {[ chat := awaiting_username ]};
     sent := []; sql := [] |}.

(** A database written in the order A, B, C with gaps in the ids, B
    created before A. *)
Definition three_rows : World :=
  {| db := {| admins := [{| admin_user_id := 1 |}];
              waitlist_entries :=
                [ row 2 10 (py "@alice") (py "pwA") 300;
                  row 5 11 (py "@bobby") (py "pwB") 200;
                  row 9 12 (py "@carol") (py "pwC") 400 ];
              waitlist_seq := 9 |};
     user_states := ∅; sent := []; sql := [] |}.

End Scenario.
Import Scenario.

(** ** Further scenarios *)

Module Cases.

(** Every call times out. *)
Definition always_timed_out : nat -> Outcome Z := fun _ => Raises timed_out.

(** Every call is answered with a rate limit of one second. *)
Definition always_rate_limited : nat -> Outcome Z :=
  fun _ => Raises (retry_after 1).

(** Every call raises an exception from outside [telegram.error]. *)
Definition always_value_error : nat -> Outcome Z :=
  fun _ => Raises (value_error (py "invalid literal")).

(** The state after [two_senders]: 1001 is admin and asked for a handle,
    2002 is registered as [@my_name1], 3003 is asked for a handle. *)
Definition after_two_senders : World :=
  (run reliable_api two_senders initial).2.

End Cases.
Import Cases.

(** * Properties *)

(** ** Code points *)

Lemma isspace_true c :
  isspace c = true ->
  9 <= c <= 13 \/ 28 <= c <= 32 \/ 0x85 <= c.
Proof.
  unfold isspace, in_range.
  rewrite !orb_true_iff, !andb_true_iff, !Z.leb_le, !Z.eqb_eq. lia.
Qed.

Lemma is_alpha_true c :
  is_alpha c = true <-> 97 <= c <= 122 \/ 65 <= c <= 90.
Proof.
  unfold is_alpha, in_range.
  rewrite !orb_true_iff, !andb_true_iff, !Z.leb_le. lia.
Qed.

Lemma is_word_true c :
  is_word c = true <->
  97 <= c <= 122 \/ 65 <= c <= 90 \/ 48 <= c <= 57 \/ c = 95.
Proof.
  unfold is_word, is_digit. rewrite !orb_true_iff, is_alpha_true.
  unfold in_range. rewrite !andb_true_iff, !Z.leb_le, Z.eqb_eq. lia.
Qed.

Lemma is_alpha_word c : is_alpha c = true -> is_word c = true.
Proof. rewrite is_alpha_true, is_word_true. lia. Qed.

Lemma word_not_space c : is_word c = true -> isspace c = false.
Proof.
  rewrite is_word_true. intros Hw.
  destruct (isspace c) eqn:Hs; [|done].
  apply isspace_true in Hs. lia.
Qed.

Lemma lower_cp_cases c :
  (65 <= c <= 90 /\ lower_cp c = c + 32) \/ (~ 65 <= c <= 90 /\ lower_cp c = c).
Proof.
  unfold lower_cp, in_range.
  destruct (Z.leb_spec 65 c), (Z.leb_spec c 90); simpl; lia.
Qed.

Lemma lower_cp_alpha c : is_alpha c = true -> is_alpha (lower_cp c) = true.
Proof. rewrite !is_alpha_true. destruct (lower_cp_cases c); lia. Qed.

Lemma lower_cp_word c : is_word c = true -> is_word (lower_cp c) = true.
Proof. rewrite !is_word_true. destruct (lower_cp_cases c); lia. Qed.

Lemma lower_cp_idem c : lower_cp (lower_cp c) = lower_cp c.
Proof.
  destruct (lower_cp_cases c) as [[? ->]|[? ->]];
    destruct (lower_cp_cases (c + 32)), (lower_cp_cases c); lia.
Qed.

Lemma lower_idem s : lower (lower s) = lower s.
Proof.
  unfold lower. rewrite map_map. apply map_ext. intros; apply lower_cp_idem.
Qed.

Lemma lower_length s : length (lower s) = length s.
Proof. unfold lower. apply length_map. Qed.

Lemma lower_word s :
  Forall (fun c => is_word c = true) s ->
  Forall (fun c => is_word c = true) (lower s).
Proof.
  unfold lower. intros H. rewrite Forall_map.
  eapply Forall_impl; [exact H|]. intros c Hc. simpl. by apply lower_cp_word.
Qed.

(** ** [strip] *)

Lemma lstrip_head s c t : lstrip s = c :: t -> isspace c = false.
Proof.
  induction s as [|a s IH]; simpl; [done|].
  destruct (isspace a) eqn:Ha; [done|].
  intros [= -> _]. done.
Qed.

Lemma strip_last raw t c : strip raw = t ++ [c] -> isspace c = false.
Proof.
  unfold strip, rstrip. intros H.
  apply (f_equal (@rev Z)) in H.
  rewrite rev_involutive, rev_app_distr in H. simpl in H.
  by apply lstrip_head in H.
Qed.

Lemma lstrip_nospace s :
  Forall (fun c => isspace c = false) s -> lstrip s = s.
Proof. destruct 1 as [|c s Hc _]; simpl; [done|]. by rewrite Hc. Qed.

Lemma strip_nospace s :
  Forall (fun c => isspace c = false) s -> strip s = s.
Proof.
  intros H. unfold strip, rstrip.
  rewrite (lstrip_nospace s H), lstrip_nospace.
  - apply rev_involutive.
  - rewrite Forall_forall in *. intros c Hc. apply H.
    by apply list_elem_of_In, in_rev, list_elem_of_In.
Qed.

(** ** [USERNAME_RE] *)

Lemma at_end_cases tl : at_end tl = true -> tl = [] \/ tl = [10].
Proof.
  destruct tl as [|c [|? ?]]; simpl; auto; [|done].
  intros ->%Z.eqb_eq. auto.
Qed.

Lemma word_rep_stop lo hi s m :
  (if (lo =? 0)%nat && at_end s then Some [] else None) = Some m ->
  exists tl, s = m ++ tl /\ at_end tl = true
    /\ Forall (fun c => is_word c = true) m
    /\ (lo <= length m <= hi)%nat.
Proof.
  destruct (lo =? 0)%nat eqn:Hlo, (at_end s) eqn:He; simpl; try done.
  intros [= <-]. apply Nat.eqb_eq in Hlo. exists s.
  repeat split; auto; simpl; lia.
Qed.

Lemma word_rep_sound lo hi s m :
  word_rep lo hi s = Some m ->
  exists tl, s = m ++ tl /\ at_end tl = true
    /\ Forall (fun c => is_word c = true) m
    /\ (lo <= length m <= hi)%nat.
Proof.
  revert lo s m. induction hi as [|hi IH]; intros lo s m.
  - simpl. destruct s; apply word_rep_stop.
  - simpl. destruct s as [|c s]; [apply word_rep_stop|].
    destruct (is_word c) eqn:Hc; [|apply word_rep_stop].
    destruct (word_rep (Nat.pred lo) hi s) as [m'|] eqn:Hrec;
      [|apply word_rep_stop].
    intros [= <-]. apply IH in Hrec as (tl & -> & He & Hall & Hlen).
    exists tl. repeat split; auto; simpl; lia.
Qed.

Lemma word_rep_complete lo hi m tl :
  at_end tl = true ->
  Forall (fun c => is_word c = true) m ->
  (lo <= length m <= hi)%nat ->
  word_rep lo hi (m ++ tl) = Some m.
Proof.
  intros He Hall. revert lo hi.
  induction Hall as [|c m Hc Hall IH]; intros lo hi Hlen; simpl in Hlen.
  - assert (lo = 0%nat) as -> by lia. simpl app.
    destruct (at_end_cases tl He) as [-> | ->]; destruct hi; reflexivity.
  - destruct hi as [|hi]; [lia|]. simpl. rewrite Hc.
    rewrite IH by lia. done.
Qed.

Lemma group_1_cons c s :
  group_1 (c :: s) = if is_alpha c then cons c <$> word_rep 4 31 s else None.
Proof. reflexivity. Qed.

Lemma group_1_spec s g :
  group_1 s = Some g <->
  exists tl, s = g ++ tl /\ at_end tl = true /\ valid_handle g.
Proof.
  unfold valid_handle. split.
  - unfold group_1. destruct s as [|c s]; [done|].
    destruct (is_alpha c) eqn:Hc; [|done].
    destruct (word_rep 4 31 s) as [m|] eqn:Hm; [|done].
    intros [= <-]. apply word_rep_sound in Hm as (tl & -> & He & Hall & Hlen).
    exists tl. repeat split; eauto; simpl; try lia.
    constructor; [by apply is_alpha_word|done].
  - intros (tl & -> & He & (c & rest & -> & Hc) & Hlen & Hall).
    rewrite <- app_comm_cons, group_1_cons, Hc.
    inversion Hall; subst. rewrite length_cons in Hlen.
    rewrite word_rep_complete by (auto; lia). done.
Qed.

Lemma USERNAME_RE_match_cons c s :
  USERNAME_RE_match (c :: s) =
  if c =? 64 then
    match group_1 s with
    | Some g => Some g
    | None => group_1 (c :: s)
    end
  else group_1 (c :: s).
Proof. reflexivity. Qed.

Lemma USERNAME_RE_match_spec s g :
  USERNAME_RE_match s = Some g <->
  exists tl, (s = g ++ tl \/ s = 64 :: g ++ tl)
             /\ at_end tl = true /\ valid_handle g.
Proof.
  split.
  - intros H.
    assert (group_1 s = Some g \/ exists s', s = 64 :: s' /\ group_1 s' = Some g)
      as [Hg | (s' & -> & Hg)].
    { destruct s as [|c s']; [by left|].
      rewrite USERNAME_RE_match_cons in H.
      destruct (Z.eqb_spec c 64) as [->|Hne]; [|by left].
      destruct (group_1 s') eqn:Hs'; [|by left].
      right. exists s'. split; congruence. }
    + apply group_1_spec in Hg as (tl & -> & ?). exists tl. auto.
    + apply group_1_spec in Hg as (tl & -> & ?). exists tl. auto.
  - intros (tl & [-> | ->] & He & Hv).
    + assert (Hg : group_1 (g ++ tl) = Some g) by (apply group_1_spec; eauto).
      destruct Hv as ((c & rest & -> & Hc) & _).
      apply is_alpha_true in Hc.
      rewrite <- app_comm_cons in *. rewrite USERNAME_RE_match_cons.
      destruct (Z.eqb_spec c 64); [lia|done].
    + assert (Hg : group_1 (g ++ tl) = Some g) by (apply group_1_spec; eauto).
      rewrite USERNAME_RE_match_cons, Hg. done.
Qed.

(** ** [normalize_username] *)

Lemma valid_handle_nonempty name : valid_handle name -> name <> [].
Proof. by intros ((c & rest & -> & _) & _). Qed.

Lemma normalize_username_accepted raw r :
  normalize_username raw = Some r <-> accepted raw r.
Proof.
  unfold normalize_username, accepted. cbv zeta. split.
  - destruct (strip raw) as [|c s] eqn:Hs; [done|].
    destruct (USERNAME_RE_match (c :: s)) as [name|] eqn:Hm; [|done].
    intros [= <-]. exists name.
    apply USERNAME_RE_match_spec in Hm as (tl & Hshape & He & Hv).
    split; [|done].
    destruct (at_end_cases tl He) as [-> | ->].
    + rewrite app_nil_r in Hshape. done.
    + exfalso. assert (isspace 10 = false); [|done].
      destruct Hshape as [Heq | Heq]; rewrite Heq in Hs.
      * by apply strip_last in Hs.
      * rewrite app_comm_cons in Hs. by apply strip_last in Hs.
  - intros (name & Hshape & Hv & ->).
    assert (Hm : USERNAME_RE_match (strip raw) = Some name).
    { apply USERNAME_RE_match_spec. exists []. rewrite app_nil_r. done. }
    destruct (strip raw) as [|c s] eqn:Hs.
    + destruct Hshape as [<- | ?]; [|done]. by apply valid_handle_nonempty in Hv.
    + by rewrite Hm.
Qed.

(** C5.  [normalize_username] returns a result exactly when the trimmed
    input is an optional [@] followed by a text that starts with a letter
    and has 5 to 32 characters, all of them letters, digits or underscore;
    the result is then [@] followed by that text in lower case, and every
    other input yields [None]. *)
Theorem normalize_username_contract (raw : pystr) :
  (forall r, normalize_username raw = Some r <-> accepted raw r)
  /\ (normalize_username raw = None <-> ~ exists r, accepted raw r).
Proof.
  split; [apply normalize_username_accepted|].
  split.
  - intros Hn (r & Hr). apply normalize_username_accepted in Hr. congruence.
  - intros Hno. destruct (normalize_username raw) as [r|] eqn:Hn; [|done].
    exfalso. apply Hno. exists r. by apply normalize_username_accepted.
Qed.

Lemma valid_handle_lower name : valid_handle name -> valid_handle (lower name).
Proof.
  intros ((c & rest & -> & Hc) & Hlen & Hall). repeat split.
  - exists (lower_cp c), (lower rest). split; [done|]. by apply lower_cp_alpha.
  - rewrite lower_length. lia.
  - rewrite lower_length. lia.
  - by apply lower_word.
Qed.

(** C6.  On an input that [normalize_username] accepts, normalising the
    result again returns it unchanged. *)
Theorem normalize_username_idempotent (x y : pystr) :
  normalize_username x = Some y ->
  normalize_username y = Some y.
Proof.
  intros Hx. apply normalize_username_accepted in Hx as (name & _ & Hv & ->).
  apply normalize_username_accepted.
  exists (lower name). split; [right|split].
  - apply strip_nospace. constructor; [done|].
    apply valid_handle_lower in Hv as (_ & _ & Hall).
    eapply Forall_impl; [exact Hall|]. intros c Hc. by apply word_not_space.
  - by apply valid_handle_lower.
  - by rewrite lower_idem.
Qed.

Lemma normalize_username_idempotent_witness :
  normalize_username (py "  My_Name1 ") = Some (py "@my_name1")
  /\ normalize_username (py "@my_name1") = Some (py "@my_name1").
Proof.
  split; [reflexivity|].
  apply (normalize_username_idempotent (py "  My_Name1 ")). reflexivity.
Defined.

Example normalize_scenario :
  normalize_username (py "My_Name1") = Some (py "@my_name1").
Proof. reflexivity. Qed.

Example normalize_marker_only : normalize_username (py " @ ") = None.
Proof. reflexivity. Qed.

Example normalize_too_short : normalize_username (py "@abcd") = None.
Proof. reflexivity. Qed.

Example normalize_33_characters :
  normalize_username (py "a23456789012345678901234567890123") = None.
Proof. reflexivity. Qed.

Example normalize_32_characters :
  normalize_username (py "a2345678901234567890123456789012")
  = Some (py "@a2345678901234567890123456789012").
Proof. reflexivity. Qed.

(** [$] alone would accept a final line feed; [strip] removes it first. *)
Example USERNAME_RE_final_newline :
  USERNAME_RE_match (py "alice" ++ [10]) = Some (py "alice")
  /\ normalize_username (py "alice" ++ [10]) = Some (py "@alice").
Proof. split; reflexivity. Qed.

(** ** [catch_telegram_errors] *)

Section WrapperProperties.
Context {V : Type}.
Implicit Types (func : nat -> Outcome V) (e : PyExc).

Lemma wrapper_loop_absorbs func (N : nat) :
  (forall i, (N <= i)%nat -> ~ rate_limited (func i)) ->
  (forall i e, func i = Raises e -> absorbed e) ->
  forall fuel call retry_count slept,
    (retry_count < max_retries)%nat ->
    ((N - call) + (max_retries - 1 - retry_count) < fuel)%nat ->
    exists r slept',
      wrapper_loop fuel func call retry_count slept = Some (r, slept')
      /\ (r = Absent \/ exists v, r = Result v).
Proof.
  intros Hrate Habs. unfold max_retries.
  induction fuel as [|fuel IH]; intros call rc slept Hrc Hfuel; [lia|].
  simpl. destruct (func call) as [v|e] eqn:Hcall; [eauto 6|].
  destruct (Habs _ _ Hcall) as [Htg Hbad].
  assert (Hretry : exists r slept',
             (if (max_retries <=? S rc)%nat then Some (Absent, slept)
              else wrapper_loop fuel func (S call) (S rc)
                     (slept ++ [backoff (S rc)])) = Some (r, slept')
             /\ (r = Absent \/ exists v, r = Result v)).
  { unfold max_retries. destruct (Nat.leb_spec 5 (S rc)); [eauto|].
    apply IH; lia. }
  destruct (isinstance e Unauthorized) eqn:Hun; [eauto|].
  destruct (isinstance e RetryAfter) eqn:Hra.
  { assert (call < N)%nat.
    { destruct (Nat.lt_ge_cases call N) as [?|Hge]; [done|].
      exfalso. apply (Hrate _ Hge). by rewrite Hcall. }
    apply IH; lia. }
  destruct (isinstance e TimedOut) eqn:Hto; [exact Hretry|].
  destruct (isinstance e NetworkError) eqn:Hne; [exact Hretry|].
  simpl. destruct (isinstance e BadRequest) eqn:Hbr.
  { destruct (Hbad eq_refl) as [?|[?|[?|[?|Hnf]]]]; try congruence.
    rewrite Hnf. eauto. }
  rewrite Htg. exact Hretry.
Qed.

(** C1, as the code has it.  When every exception of the wrapped call is
    a Telegram error that an [except] clause absorbs, and the platform
    stops answering with a rate limit after [N] calls, the wrapper returns
    within [N + 5] calls, and what it returns is the result of the call or
    [None]. *)
Theorem wrapper_absorbs_telegram_errors func (N : nat) :
  (forall i, (N <= i)%nat -> ~ rate_limited (func i)) ->
  (forall i e, func i = Raises e -> absorbed e) ->
  exists r slept,
    wrapper (N + 5) func = Some (r, slept)
    /\ (r = Absent \/ exists v, r = Result v).
Proof.
  intros Hrate Habs. unfold wrapper.
  apply (wrapper_loop_absorbs func N Hrate Habs); unfold max_retries; lia.
Qed.

(** X11.  Conversely, an exception leaves the wrapper only when the wrapped
    call raised it and no clause absorbs it. *)
Lemma wrapper_loop_propagated func fuel call retry_count slept e slept' :
  wrapper_loop fuel func call retry_count slept = Some (Propagated e, slept') ->
  (exists i, func i = Raises e) /\ ~ absorbed e.
Proof.
  revert call retry_count slept.
  induction fuel as [|fuel IH]; intros call rc slept; [done|].
  cbn -[Nat.leb backoff]. destruct (func call) as [v|e'] eqn:Hcall; [done|].
  destruct (isinstance e' Unauthorized) eqn:Hun; [done|].
  destruct (isinstance e' RetryAfter) eqn:Hra; [by apply IH|].
  destruct (isinstance e' TimedOut) eqn:Hto; cbn [orb].
  { destruct (_ <=? _)%nat; [done|by apply IH]. }
  destruct (isinstance e' NetworkError) eqn:Hne.
  { destruct (_ <=? _)%nat; [done|by apply IH]. }
  destruct (isinstance e' BadRequest) eqn:Hbr.
  { destruct (not_found e') eqn:Hnf; [done|]. intros [= <- _].
    split; [eauto|]. intros [_ Hbad].
    destruct (Hbad Hbr) as [?|[?|[?|[?|?]]]]; congruence. }
  destruct (isinstance e' TelegramError) eqn:Htg.
  { destruct (_ <=? _)%nat; [done|by apply IH]. }
  intros [= <- _]. split; [eauto|]. intros [? _]. congruence.
Qed.

(** X12.  Under a rate limit that never ends the loop does not return,
    whatever the number of iterations. *)
Lemma wrapper_loop_rate_limited_forever func :
  (forall i, exists e, func i = Raises e
                       /\ isinstance e Unauthorized = false
                       /\ isinstance e RetryAfter = true) ->
  forall fuel call retry_count slept,
    wrapper_loop fuel func call retry_count slept = None.
Proof.
  intros Hrate. induction fuel as [|fuel IH]; intros call rc slept; [done|].
  simpl. destruct (Hrate call) as (e & -> & -> & ->). apply IH.
Qed.

End WrapperProperties.

Lemma wrapper_absorbs_telegram_errors_witness :
  exists r slept,
    wrapper (1 + 5) rate_limited_once = Some (r, slept)
    /\ (r = Absent \/ exists v, r = Result v).
Proof.
  apply (wrapper_absorbs_telegram_errors rate_limited_once 1).
  - intros [|i] Hi; [lia|]. simpl. tauto.
  - intros [|i] e; simpl; [|done].
    intros [= <-]. split; [reflexivity|]. intros H. vm_compute in H. done.
Defined.

Example wrapper_rate_limit_scenario :
  wrapper 2 rate_limited_once = Some (Result 42, [3%N]).
Proof. reflexivity. Qed.

(** With the bases [telegram.error] gives it, a [BadRequest] is caught by
    the [NetworkError] clause and retried; the [BadRequest] clause is
    reached only by an exception that is not a [NetworkError]. *)
Example wrapper_bad_request_retried :
  wrapper 5 (fun _ => Raises (V:=Z) (bad_request (py "Message is too long")))
  = Some (Absent, [1; 2; 4; 8]%N).
Proof. reflexivity. Qed.

(** C1, counterexample.  An exception that is not a [TelegramError]
    matches no [except] clause and reaches the caller. *)
Lemma wrapper_lets_other_errors_through :
  wrapper 1 (fun _ => Raises (V:=Z) (value_error (py "invalid literal")))
  = Some (Propagated (value_error (py "invalid literal")), []).
Proof. reflexivity. Qed.

(** ** The database *)

Lemma insert_admin_inl d u d' :
  insert_admin d u = inl d' ->
  admins d' = admins d ++ [{| admin_user_id := u |}]
  /\ waitlist_entries d' = waitlist_entries d.
Proof.
  unfold insert_admin. destruct (admin_by_user d u); [done|].
  by intros [= <-].
Qed.

Lemma insert_entry_inl d u name pw t d' :
  insert_entry d u name pw t = inl d' ->
  admins d' = admins d
  /\ entry_by_username d name = None
  /\ exists row, waitlist_entries d' = waitlist_entries d ++ [row]
       /\ user_id row = u /\ wanted_username row = name.
Proof.
  unfold insert_entry. destruct (entry_by_username d name); [done|].
  intros [= <-]. simpl. eauto 8.
Qed.

Lemma insert_entry_inr d u name pw t e :
  insert_entry d u name pw t = inr e ->
  isinstance e IntegrityError = true /\ is_Some (entry_by_username d name).
Proof.
  unfold insert_entry. destruct (entry_by_username d name); [|done].
  intros [= <-]. split; [reflexivity|eauto].
Qed.

Lemma entry_by_user_None d u :
  entry_by_user d u = None <-> u ∉ map user_id (waitlist_entries d).
Proof.
  unfold entry_by_user. rewrite list_elem_of_In, in_map_iff. split.
  - intros Hnone (e & <- & Hin).
    eapply find_none in Hnone; [|exact Hin]. simpl in Hnone. lia.
  - intros Hno. destruct (List.find _ _) as [e|] eqn:Hf; [|done].
    apply find_some in Hf as [Hin Heq]. exfalso. apply Hno.
    exists e. split; [lia|done].
Qed.

Lemma admin_by_user_last l u :
  is_Some (List.find (fun a => admin_user_id a =? u)
             (l ++ [{| admin_user_id := u |}])).
Proof.
  destruct (List.find _ _) as [a|] eqn:Hf; [eauto|].
  eapply find_none with (x := {| admin_user_id := u |}) in Hf.
  - simpl in Hf. lia.
  - apply in_or_app. right. by left.
Qed.

#[local] Instance created_le_total : Total created_le.
Proof. intros a b. unfold created_le. lia. Qed.

#[local] Instance created_le_trans : Transitive created_le.
Proof. intros a b c. unfold created_le. lia. Qed.

(** ** The loop body *)

Ltac unfold_loop :=
  cbv beta iota zeta delta
    [handle_update dispatch bind mbind M_bind ret raise try_finally log_sql
     call state_pop state_set state_get get_db put_db commit others_commit].

Ltac reduce_world :=
  cbv beta iota; cbn [db user_states sent sql fst snd andb negb].

Ltac decided :=
  repeat match goal with
    | H : bool_decide _ = true |- _ => apply bool_decide_eq_true in H
    | H : bool_decide _ = false |- _ => apply bool_decide_eq_false in H
    | H : (_ =? _)%nat = true |- _ => apply Nat.eqb_eq in H
    | H : (_ =? _)%nat = false |- _ => apply Nat.eqb_neq in H
    | H : _ && _ = true |- _ => apply andb_true_iff in H as [? ?]
    end.

(** Case analysis on the innermost test the loop body depends on. *)
Ltac branch :=
  match goal with
  | |- context [match ?x with _ => _ end] =>
      lazymatch x with
      | context [match _ with _ => _ end] => fail
      | _ => destruct x eqn:?
      end
  end; reduce_world; simplify_eq; try congruence.

Ltac branches := unfold_loop; reduce_world; repeat branch; decided.

Ltac inserted :=
  repeat match goal with
    | H : insert_admin _ _ = inl _ |- _ =>
        apply insert_admin_inl in H as [? ?]
    | H : insert_entry _ _ _ _ _ = inl _ |- _ =>
        apply insert_entry_inl in H as (? & ? & ? & ? & ? & ?)
    | H : insert_entry _ _ _ _ _ = inr _ |- _ =>
        apply insert_entry_inr in H as [? ?]
    end.

Lemma run_cons api update env rest w :
  run api ((update, env) :: rest) w =
  match handle_update api [] env update w with
  | (Ok _, w') => run api rest w'
  | (Exn e, w') => (Exn e, w')
  end.
Proof. reflexivity. Qed.

(** A property that every update preserves holds after the loop. *)
Lemma run_invariant api (ok : Update -> Prop) (P : World -> Prop) :
  (forall env update w,
     ok update -> P w -> P (handle_update api [] env update w).2) ->
  forall inbound w,
    Forall (fun i => ok i.1) inbound -> P w -> P (run api inbound w).2.
Proof.
  intros Hstep. induction inbound as [|[update env] rest IH]; intros w Hok Hw.
  - done.
  - inversion Hok as [|? ? Hu Hrest]; subst. rewrite run_cons.
    specialize (Hstep env update w Hu Hw).
    destruct (handle_update api [] env update w) as [[[]|e] w']; simpl in *.
    + by apply IH.
    + done.
Qed.

(** C10.  An update without a message is skipped: no call on [bot], the
    conversation states unchanged, no session opened, the database not
    touched. *)
Theorem update_without_message_skipped api conc env (update : Update)
    (w : World) :
  message update = None ->
  handle_update api conc env update w = (Ok tt, w).
Proof. intros H. unfold handle_update. by rewrite H. Qed.

Lemma update_without_message_skipped_witness :
  handle_update reliable_api [] (env_at 0) no_message three_rows
  = (Ok tt, three_rows).
Proof.
  apply (update_without_message_skipped reliable_api [] (env_at 0) no_message).
  reflexivity.
Defined.

(** C9.  A message from a chat that is not private, whatever its text:
    the one call made is the private-only notice to that chat; the
    conversation states, the database and the session log are as before. *)
Theorem non_private_message_only_notice api conc env (update : Update)
    (m : Message) (w : World) :
  message update = Some m ->
  chat_type m <> private ->
  let w' := (handle_update api conc env update w).2 in
  sent w' = sent w ++ [send_message (chat_id m) strings.msg_private_only None]
  /\ user_states w' = user_states w
  /\ db w' = db w
  /\ sql w' = sql w.
Proof.
  intros Hm Hty. cbv zeta. unfold handle_update. rewrite Hm.
  rewrite bool_decide_eq_true_2 by done.
  unfold call. by destruct (api _ _).
Qed.

Lemma non_private_message_only_notice_witness :
  let w' := (handle_update reliable_api [] (env_at 0)
               (group_text 50 7 (py "/start")) three_rows).2 in
  sent w' = [send_message 50 strings.msg_private_only None]
  /\ user_states w' = user_states three_rows
  /\ db w' = db three_rows
  /\ sql w' = [].
Proof.
  apply (non_private_message_only_notice reliable_api [] (env_at 0)
           (group_text 50 7 (py "/start"))
           {| chat_id := 50; chat_type := group; from_user := Some 7;
              text := Some (py "/start") |} three_rows).
  - reflexivity.
  - discriminate.
Defined.

(** One update leaves [admins] as it is, or finds it empty and inserts the
    sender. *)
Lemma handle_update_admins api conc env update w :
  let w' := (handle_update api conc env update w).2 in
  admins (db w') = admins (db w)
  \/ (admin_count (db w) = 0%nat
      /\ exists m uid, message update = Some m /\ from_user m = Some uid
           /\ admins (db w') = [{| admin_user_id := uid |}]).
Proof.
  cbv zeta. branches; inserted; try (by left).
  all: try (left; unfold committed_elsewhere in *; simpl in *; congruence).
  all: right; split; [done|]; do 2 eexists; do 2 (split; [done|]).
  all: match goal with
       | H : admin_count _ = 0%nat |- _ =>
           unfold admin_count in H; apply nil_length_inv in H
       end.
  all: match goal with
       | H : admins _ = _ ++ _, H' : admins _ = [] |- _ => by rewrite H, H'
       end.
Qed.

(** C3.  Starting with no admin, after any sequence of updates the table
    [admins] has at most one row; and an update changes [admins] only when
    the count it read was zero, the new table being the sender alone. *)
Theorem at_most_one_admin api (inbound : list (Update * Env)) (w : World) :
  admins (db w) = [] ->
  (length (admins (db (run api inbound w).2)) <= 1)%nat
  /\ (forall conc env update w0,
        let w1 := (handle_update api conc env update w0).2 in
        admins (db w1) <> admins (db w0) ->
        admin_count (db w0) = 0%nat
        /\ exists m uid, message update = Some m /\ from_user m = Some uid
             /\ admins (db w1) = [{| admin_user_id := uid |}]).
Proof.
  intros Hw. split.
  - apply (run_invariant api (fun _ => True)
             (fun w => (length (admins (db w)) <= 1)%nat)).
    + intros env update w0 _ Hlen.
      destruct (handle_update_admins api [] env update w0)
        as [Heq | (_ & m & uid & _ & _ & Heq)]; rewrite Heq; [done|simpl; lia].
    + by apply Forall_forall.
    + rewrite Hw. simpl. lia.
  - intros conc env update w0 w1 Hne.
    by destruct (handle_update_admins api conc env update w0).
Qed.

Lemma at_most_one_admin_witness :
  (length (admins (db (run reliable_api two_senders initial).2)) <= 1)%nat.
Proof.
  apply (at_most_one_admin reliable_api two_senders initial). reflexivity.
Defined.

Example first_start_makes_admin :
  admins (db (run reliable_api two_senders initial).2)
  = [{| admin_user_id := 1001 |}].
Proof. vm_compute. reflexivity. Qed.

(** The two facts the registration path rests on are kept by every update
    of a chat that carries its sender's id, with this process as the only
    writer. *)
Lemma handle_update_entries api env update w :
  private_chat_of_sender update ->
  one_entry_per_user w /\ awaiting_without_entry w ->
  let w' := (handle_update api [] env update w).2 in
  one_entry_per_user w' /\ awaiting_without_entry w'.
Proof.
  unfold private_chat_of_sender, one_entry_per_user, awaiting_without_entry.
  intros Hchat [Hnodup Hwait]. cbv zeta.
  assert (Hsame : forall d,
             waitlist_entries d = waitlist_entries (db w) ->
             forall chat, entry_by_user d chat = entry_by_user (db w) chat).
  { intros d Hd chat. unfold entry_by_user. by rewrite Hd. }
  branches; inserted.
  all: try match goal with
         | H' : ¬ chat_type ?m ≠ private |- _ =>
             apply dec_stable in H'; specialize (Hchat m eq_refl H')
         end; simplify_eq.
  all: try done.
  all: unfold committed_elsewhere in *; cbn [admins waitlist_entries] in *;
       rewrite ?app_nil_r in *.
  (* [/start]: the state is cleared, and set again only without an entry *)
  all: try (split;
            [ first [ assumption
                    | match goal with
                      | H : waitlist_entries _ = waitlist_entries _ |- _ =>
                          by rewrite H
                      end ]
            | intros chat; rewrite ?lookup_insert, ?lookup_delete;
              repeat case_decide; subst; try done; intros ?;
              rewrite ?Hsame by done;
              first [ by apply eq_None_not_Some | by apply Hwait ] ]; fail).
  (* registration: the sender's chat was waiting, so had no row *)
  all: match goal with
       | Hs : user_states _ !! ?c = Some awaiting_username,
         Hr : waitlist_entries _ = waitlist_entries _ ++ [?row],
         Hu : user_id ?row = ?c |- _ =>
           pose proof (Hwait c Hs) as Hfresh;
           apply entry_by_user_None in Hfresh;
           rename Hr into Hrows; rename Hu into Huser
       end.
  all: assert (Hmap : forall d, waitlist_entries d = waitlist_entries (db w) ++ [x]
                 -> map user_id (waitlist_entries d)
                    = map user_id (waitlist_entries (db w)) ++ [chat_id m])
         by (intros d ->; rewrite map_app; simpl; by rewrite Huser).
  all: split; [rewrite (Hmap _ Hrows)|intros chat].
  all: try (apply NoDup_app; repeat split;
            [ done
            | intros ? ? ->%list_elem_of_singleton; done
            | apply NoDup_singleton ]).
  all: rewrite lookup_delete; destruct (decide (chat_id m = chat)); [done|];
       intros Hc; apply Hwait in Hc;
       apply entry_by_user_None; apply entry_by_user_None in Hc;
       rewrite (Hmap _ Hrows), elem_of_app, list_elem_of_singleton;
       intros [?|?]; [done|congruence].
Qed.

(** C4.  For every sequence of updates as the platform delivers them, a
    private chat carrying the id of its sender, every state reached from
    the empty database has at most one waitlist entry per user. *)
Theorem at_most_one_entry_per_user api (inbound : list (Update * Env)) :
  Forall (fun i => private_chat_of_sender i.1) inbound ->
  NoDup (map user_id (waitlist_entries (db (run api inbound initial).2))).
Proof.
  intros Hchat.
  apply (run_invariant api private_chat_of_sender
           (fun w => one_entry_per_user w /\ awaiting_without_entry w)).
  - intros env update w. apply handle_update_entries.
  - done.
  - split; [apply NoDup_nil_2|done].
Qed.

Lemma at_most_one_entry_per_user_witness :
  NoDup (map user_id
           (waitlist_entries (db (run reliable_api two_senders initial).2))).
Proof.
  apply (at_most_one_entry_per_user reliable_api two_senders).
  unfold two_senders, private_chat_of_sender.
  repeat constructor; simpl; intros m [= <-] _; reflexivity.
Defined.

(** The premise on the chats is what the state map rests on: it is keyed
    by chat id while the rows are keyed by sender id.  A sender under two
    chat ids, which the platform does not deliver, would be asked for a
    handle in both chats and get a row for each answer. *)
Example two_entries_for_one_user :
  map user_id
    (waitlist_entries (db (run reliable_api two_chats_one_sender initial).2))
  = [7; 7].
Proof. vm_compute. reflexivity. Qed.

Lemma calls_since_app w w' cs :
  sent w' = sent w ++ cs -> calls_since w w' = cs.
Proof. unfold calls_since. intros ->. apply drop_app_length. Qed.

Ltac new_calls :=
  cbn [sent]; rewrite <- ?app_assoc;
  first [ erewrite calls_since_app by reflexivity
        | erewrite calls_since_app by (symmetry; apply app_nil_r) ].

(** C7.  [/start] in a private chat.  From an admin without a waitlist
    entry: the admin menu is not sent, the chat is set to await a handle
    and the one call is the prompt for it.  And whenever the admin menu is
    sent, the sender has an entry and is in [admins]. *)
Theorem start_by_admin_without_entry api conc env (update : Update)
    (m : Message) (uid : Z) (w : World) :
  message update = Some m ->
  chat_type m = private ->
  from_user m = Some uid ->
  strip (default [] (text m)) = py "/start" ->
  let w' := (handle_update api conc env update w).2 in
  let menu :=
    send_message (chat_id m) strings.msg_admin_menu (Some admin_keyboard) in
  (is_Some (admin_by_user (db w) uid) ->
   entry_by_user (db w) uid = None ->
   (menu ∉ calls_since w w')
   /\ user_states w' !! chat_id m = Some awaiting_username
   /\ calls_since w w'
      = [send_message (chat_id m) strings.msg_ask_username None])
  /\ (menu ∈ calls_since w w' ->
      is_Some (entry_by_user (db w) uid)
      /\ is_Some (admin_by_user (db w') uid)).
Proof.
  intros Hm Hty Hfrom Htext. cbv zeta. split.
  - intros Hadmin Hentry.
    assert (Hcount : admin_count (db w) <> 0%nat).
    { unfold admin_count, admin_by_user in *.
      destruct (admins (db w)); [by destruct Hadmin|done]. }
    branches; try done; try (by rewrite Hentry in *).
    all: new_calls.
    all: rewrite lookup_insert_eq, list_elem_of_singleton; done.
  - unfold admin_by_user.
    branches; inserted; new_calls.
    all: rewrite ?elem_of_app, ?elem_of_cons, ?elem_of_nil; intros Hin.
    all: repeat match goal with
           | H : _ \/ _ |- _ => destruct H
           | H : send_message _ _ _ = send_message _ _ _ |- _ =>
               by vm_compute in H
           end; try done.
    all: decided; split; try done.
    all: match goal with
         | H : admins _ = _ ++ _ |- _ => rewrite H; apply admin_by_user_last
         end.
Qed.

Lemma start_by_admin_without_entry_witness :
  let w' := (handle_update reliable_api [] (env_at 0)
               (private_text 1 1 (py "/start")) (awaiting 1)).2 in
  user_states w' !! 1 = Some awaiting_username
  /\ calls_since (awaiting 1) w'
     = [send_message 1 strings.msg_ask_username None].
Proof.
  destruct (start_by_admin_without_entry reliable_api [] (env_at 0)
              (private_text 1 1 (py "/start"))
              {| chat_id := 1; chat_type := private; from_user := Some 1;
                 text := Some (py "/start") |} 1 (awaiting 1))
    as [Hprompt _]; try reflexivity.
  apply Hprompt.
  - vm_compute. eauto.
  - reflexivity.
Defined.

(** The scenario of the specification: the first [/start] makes user 1001
    the admin; the second one is answered with the prompt for a handle,
    since the admin has no entry. *)
Example first_admin_start_twice :
  let w1 := (handle_update reliable_api [] (env_at 0)
               (private_text 1001 1001 (py "/start")) initial).2 in
  let w2 := (handle_update reliable_api [] (env_at 1)
               (private_text 1001 1001 (py "/start")) w1).2 in
  sent w1 = [send_message 1001 strings.msg_first_admin None;
             send_message 1001 strings.msg_ask_username None]
  /\ calls_since w1 w2 = [send_message 1001 strings.msg_ask_username None].
Proof. vm_compute. split; reflexivity. Qed.

(** ** The export *)

Lemma export_lines_spec i entries lines :
  export_lines (S i) entries lines
  = lines ++ imap (fun k e => export_line (i + k) e) entries.
Proof.
  revert i lines. induction entries as [|e rest IH]; intros i lines.
  - simpl. by rewrite app_nil_r.
  - simpl. rewrite IH, <- app_assoc. simpl. do 2 f_equal.
    + unfold export_line. by rewrite Nat.add_0_r.
    + apply imap_ext. intros k x _. simpl. f_equal. lia.
Qed.

(** C8.  The download label from an admin in a private chat: the one call
    sends a document whose text is the lines joined by line feeds, where
    the lines render, in order and numbered from 1, the rows of
    [waitlist_entries] arranged by ascending [created_at]; the file is
    named [users.txt]. *)
Theorem download_exports_by_creation_time api conc env (update : Update)
    (m : Message) (uid : Z) (w : World) :
  message update = Some m ->
  chat_type m = private ->
  from_user m = Some uid ->
  strip (default [] (text m)) = strings.msg_admin_download ->
  is_Some (admin_by_user (db w) uid) ->
  let w' := (handle_update api conc env update w).2 in
  exists entries lines,
    entries ≡ₚ waitlist_entries (db w)
    /\ StronglySorted created_le entries
    /\ length lines = length entries
    /\ (forall k e, entries !! k = Some e -> lines !! k = Some (export_line k e))
    /\ calls_since w w'
       = [send_document (chat_id m) (join [10] lines) (py "users.txt")
            strings.msg_file_caption]
    /\ user_states w' = user_states w
    /\ db w' = db w.
Proof.
  intros Hm Hty Hfrom Htext Hadmin. cbv zeta.
  exists (order_by_created_at (db w)),
         (imap export_line (order_by_created_at (db w))).
  split; [apply merge_sort_Permutation|].
  split; [apply StronglySorted_merge_sort; apply _|].
  split; [apply length_imap|].
  split; [intros k e Hk; by rewrite list_lookup_imap, Hk|].
  assert (Hstart : bool_decide (strip (default [] (text m)) = py "/start")
                   = false).
  { apply bool_decide_eq_false_2. rewrite Htext. intros H. by vm_compute in H. }
  assert (Hsoon : bool_decide (strip (default [] (text m))
                               = strings.msg_coming_soon_btn) = false).
  { apply bool_decide_eq_false_2. rewrite Htext. intros H. by vm_compute in H. }
  assert (Hlabel : bool_decide (strip (default [] (text m))
                                = strings.msg_admin_download) = true).
  { by apply bool_decide_eq_true_2. }
  assert (Hprivate : bool_decide (chat_type m <> private) = false).
  { apply bool_decide_eq_false_2. intros H. by apply H. }
  assert (His : bool_decide (is_Some (admin_by_user (db w) uid)) = true).
  { by apply bool_decide_eq_true_2. }
  unfold_loop. rewrite Hm. reduce_world. rewrite Hprivate, Hfrom.
  reduce_world. rewrite Hstart, Hsoon, andb_false_r, His, Hlabel.
  reduce_world. rewrite (export_lines_spec 0).
  destruct (api _ _); reduce_world; new_calls; done.
Qed.

Lemma download_exports_by_creation_time_witness :
  let w' := (handle_update reliable_api [] (env_at 0)
               (private_text 1 1 strings.msg_admin_download) three_rows).2 in
  exists entries lines,
    entries ≡ₚ waitlist_entries (db three_rows)
    /\ StronglySorted created_le entries
    /\ length lines = length entries
    /\ (forall k e, entries !! k = Some e -> lines !! k = Some (export_line k e))
    /\ calls_since three_rows w'
       = [send_document 1 (join [10] lines) (py "users.txt")
            strings.msg_file_caption]
    /\ user_states w' = user_states three_rows
    /\ db w' = db three_rows.
Proof.
  apply (download_exports_by_creation_time reliable_api [] (env_at 0)
           (private_text 1 1 strings.msg_admin_download)
           {| chat_id := 1; chat_type := private; from_user := Some 1;
              text := Some strings.msg_admin_download |} 1 three_rows).
  - reflexivity.
  - reflexivity.
  - reflexivity.
  - reflexivity.
  - vm_compute. eauto.
Defined.

(** Rows written in the order A, B, C with gaps in their ids, B being the
    oldest: the export lists B, A, C, numbered 1, 2, 3. *)
Example export_follows_created_at :
  calls_since three_rows
    (handle_update reliable_api [] (env_at 0)
       (private_text 1 1 strings.msg_admin_download) three_rows).2
  = [send_document 1
       (py "1. @bobby pwB" ++ [10] ++ py "2. @alice pwA" ++ [10]
        ++ py "3. @carol pwC")
       (py "users.txt") strings.msg_file_caption].
Proof. vm_compute. reflexivity. Qed.

(** ** A conflict at the insert *)

Lemma normalized_is_no_command t name :
  normalize_username t = Some name ->
  t <> py "/start" /\ t <> strings.msg_coming_soon_btn
  /\ t <> strings.msg_admin_download /\ t <> [].
Proof. intros H. repeat split; intros ->; by vm_compute in H. Qed.

(** C2, as the code has it.  The chat awaits a handle, the text
    normalises, the uniqueness query finds no row, and another session
    commits a row with that handle before the insert: the insert's
    [IntegrityError] leaves the loop body once the session is closed; no
    call is made on [bot], and the chat still awaits a handle. *)
Theorem conflict_at_insert_propagates api conc env (update : Update)
    (m : Message) (uid : Z) (name : pystr) (w : World) :
  message update = Some m ->
  chat_type m = private ->
  from_user m = Some uid ->
  user_states w !! chat_id m = Some awaiting_username ->
  normalize_username (strip (default [] (text m))) = Some name ->
  entry_by_username (db w) name = None ->
  is_Some (entry_by_username (committed_elsewhere conc (db w)) name) ->
  exists e w',
    handle_update api conc env update w = (Exn e, w')
    /\ isinstance e IntegrityError = true
    /\ calls_since w w' = []
    /\ user_states w' !! chat_id m = Some awaiting_username
    /\ db w' = committed_elsewhere conc (db w)
    /\ last (sql w') = Some CloseSession.
Proof.
  intros Hm Hty Hfrom Hstate Hnorm Hfree Htaken.
  destruct (normalized_is_no_command _ _ Hnorm) as (H1 & H2 & H3 & H4).
  assert (Hprivate : bool_decide (chat_type m <> private) = false).
  { apply bool_decide_eq_false_2. intros H. by apply H. }
  assert (Hstart : bool_decide (strip (default [] (text m)) = py "/start")
                   = false) by by apply bool_decide_eq_false_2.
  assert (Hsoon : bool_decide (is_Some (entry_by_user (db w) uid))
                  && bool_decide (strip (default [] (text m))
                                  = strings.msg_coming_soon_btn) = false).
  { rewrite (bool_decide_eq_false_2 (_ = _)) by done. apply andb_false_r. }
  assert (Hlabel : bool_decide (is_Some (admin_by_user (db w) uid))
                   && bool_decide (strip (default [] (text m))
                                   = strings.msg_admin_download) = false).
  { rewrite (bool_decide_eq_false_2 (_ = _)) by done. apply andb_false_r. }
  assert (Hwaiting : bool_decide (user_states w !! chat_id m
                                  = Some awaiting_username)
                     && negb (bool_decide (strip (default [] (text m)) = []))
                     = true).
  { rewrite bool_decide_eq_true_2, bool_decide_eq_false_2 by done. done. }
  destruct (handle_update api conc env update w) as [r w'] eqn:Hrun.
  revert Hrun. branches; inserted.
  all: try match goal with
         | H : entry_by_username _ _ = None, H' : is_Some _ |- _ =>
             rewrite H in H'; by destruct H'
         end.
  intros [= <- <-]. do 2 eexists. split; [reflexivity|].
  split; [done|]. cbn [db user_states sent sql].
  split; [by apply calls_since_app; rewrite app_nil_r|].
  repeat split; try done. by rewrite !last_snoc.
Qed.

Lemma conflict_at_insert_propagates_witness :
  exists e w',
    handle_update reliable_api [row 1 9 (py "@alice") (py "pw") 50]
      (env_at 100) (private_text 5 5 (py "alice")) (awaiting 5) = (Exn e, w')
    /\ isinstance e IntegrityError = true
    /\ calls_since (awaiting 5) w' = []
    /\ user_states w' !! 5 = Some awaiting_username
    /\ db w' = committed_elsewhere [row 1 9 (py "@alice") (py "pw") 50]
                 (db (awaiting 5))
    /\ last (sql w') = Some CloseSession.
Proof.
  apply (conflict_at_insert_propagates reliable_api
           [row 1 9 (py "@alice") (py "pw") 50] (env_at 100)
           (private_text 5 5 (py "alice"))
           {| chat_id := 5; chat_type := private; from_user := Some 5;
              text := Some (py "alice") |} 5 (py "@alice") (awaiting 5)).
  - reflexivity.
  - reflexivity.
  - reflexivity.
  - reflexivity.
  - reflexivity.
  - reflexivity.
  - vm_compute. eauto.
Defined.

(** C2, counterexample.  With the handle taken between the query and the
    insert, the update ends in an exception and nothing is sent: there is
    no "taken" reply. *)
Lemma conflict_at_insert_not_reported :
  let res := handle_update reliable_api [row 1 9 (py "@alice") (py "pw") 50]
               (env_at 100) (private_text 5 5 (py "alice")) (awaiting 5) in
  res.1 = Exn (integrity_error
                 (py "UNIQUE constraint failed: waitlist_entries.wanted_username"))
  /\ sent res.2 = [].
Proof. vm_compute. split; reflexivity. Qed.

(** The same handle found by the query before the insert is answered with
    "taken". *)
Example taken_before_insert :
  let w := (run reliable_api two_senders initial).2 in
  sent w = [ send_message 1001 strings.msg_first_admin None;
             send_message 1001 strings.msg_ask_username None;
             send_message 1001 strings.msg_ask_username None;
             send_message 2002 strings.msg_ask_username None;
             send_message 2002 strings.msg_registered (Some user_keyboard);
             send_message 3003 strings.msg_ask_username None;
             send_message 3003 strings.msg_username_taken None ]
  /\ user_states w !! 3003 = Some awaiting_username
  /\ map wanted_username (waitlist_entries (db w)) = [py "@my_name1"].
Proof. vm_compute. repeat split; reflexivity. Qed.

(** * Further properties *)

(** ** [normalize_username]: the shape of a result, case and padding *)

Lemma isspace_lower_cp c : isspace (lower_cp c) = isspace c.
Proof.
  destruct (lower_cp_cases c) as [[Hc ->]|[_ ->]]; [|done].
  destruct (isspace c) eqn:H1, (isspace (c + 32)) eqn:H2; try done;
    repeat match goal with
           | H : isspace _ = true |- _ => apply isspace_true in H
           end; lia.
Qed.

Lemma lstrip_lower s : lstrip (lower s) = lower (lstrip s).
Proof.
  induction s as [|c s IH]; [done|].
  simpl. rewrite isspace_lower_cp. by destruct (isspace c).
Qed.

Lemma lower_rev s : lower (rev s) = rev (lower s).
Proof. unfold lower. apply map_rev. Qed.

Lemma strip_lower s : strip (lower s) = lower (strip s).
Proof.
  unfold strip, rstrip.
  by rewrite lstrip_lower, <- lower_rev, lstrip_lower, lower_rev.
Qed.

Lemma lower_cp_word_inv c : is_word (lower_cp c) = true -> is_word c = true.
Proof. rewrite !is_word_true. destruct (lower_cp_cases c); lia. Qed.

Lemma lower_cp_alpha_inv c : is_alpha (lower_cp c) = true -> is_alpha c = true.
Proof. rewrite !is_alpha_true. destruct (lower_cp_cases c); lia. Qed.

Lemma valid_handle_lower_inv name :
  valid_handle (lower name) -> valid_handle name.
Proof.
  intros ((c & rest & Heq & Hc) & Hlen & Hall).
  destruct name as [|a name]; [done|]. injection Heq as <- <-.
  rewrite lower_length in Hlen. repeat split; try lia.
  - exists a, name. split; [done|]. by apply lower_cp_alpha_inv.
  - unfold lower in Hall. rewrite Forall_map in Hall.
    eapply Forall_impl; [exact Hall|]. intros x Hx. by apply lower_cp_word_inv.
Qed.

Lemma accepted_lower raw r : accepted (lower raw) r <-> accepted raw r.
Proof.
  unfold accepted. rewrite strip_lower. split.
  - intros (name & Hshape & Hv & ->). destruct Hshape as [Heq | Heq].
    + exists (strip raw). rewrite <- Heq in *.
      split; [by left|]. split; [by apply valid_handle_lower_inv|].
      by rewrite lower_idem.
    + destruct (strip raw) as [|c rest] eqn:Hs; [done|].
      injection Heq as Hc <-.
      assert (c = 64) as -> by (destruct (lower_cp_cases c); lia).
      exists rest. split; [by right|].
      split; [by apply valid_handle_lower_inv|]. by rewrite lower_idem.
  - intros (name & Hshape & Hv & ->). exists (lower name).
    split; [|split; [by apply valid_handle_lower|by rewrite lower_idem]].
    destruct Hshape as [-> | ->]; [by left|by right].
Qed.

Lemma normalize_username_lower_Some raw r :
  normalize_username (lower raw) = Some r <-> normalize_username raw = Some r.
Proof. rewrite !normalize_username_accepted. apply accepted_lower. Qed.

(** X1.  On an ASCII input, where [lower] is [str.lower], upper and lower
    case are not told apart: the input and its lower-cased form have the
    same result. *)
Theorem normalize_username_ignores_case (raw : pystr) :
  Forall is_ascii raw ->
  normalize_username (lower raw) = normalize_username raw.
Proof.
  intros _.
  destruct (normalize_username raw) as [r|] eqn:Hr.
  - by apply normalize_username_lower_Some.
  - destruct (normalize_username (lower raw)) as [r|] eqn:Hl; [|done].
    apply (proj1 (normalize_username_lower_Some raw r)) in Hl. congruence.
Qed.

Lemma normalize_username_ignores_case_witness :
  normalize_username (lower (py " @My_Name1"))
  = normalize_username (py " @My_Name1").
Proof.
  apply (normalize_username_ignores_case (py " @My_Name1")).
  repeat constructor; unfold is_ascii; lia.
Defined.

(** X2.  A result is [@] followed by 5 to 32 characters, the first a
    lower-case letter and all of them lower-case letters, digits or
    underscores. *)
Theorem normalize_username_result_shape (raw r : pystr) :
  normalize_username raw = Some r ->
  exists c rest,
    r = 64 :: c :: rest
    /\ in_range 97 122 c = true
    /\ (4 <= length rest <= 31)%nat
    /\ Forall (fun x => in_range 97 122 x || is_digit x || (x =? 95) = true)
              (c :: rest).
Proof.
  intros (name & _ & Hv & ->)%normalize_username_accepted.
  destruct Hv as ((c & rest & -> & Hc) & Hlen & Hall).
  exists (lower_cp c), (lower rest). simpl in Hlen.
  split; [done|]. split; [|split].
  - apply is_alpha_true in Hc. unfold in_range.
    destruct (lower_cp_cases c); apply andb_true_iff; rewrite !Z.leb_le; lia.
  - rewrite lower_length. lia.
  - change (lower_cp c :: lower rest) with (lower (c :: rest)).
    unfold lower. rewrite Forall_map.
    eapply Forall_impl; [exact Hall|]. intros x Hx. simpl.
    apply is_word_true in Hx. unfold is_digit, in_range.
    rewrite !orb_true_iff, !andb_true_iff, !Z.leb_le, Z.eqb_eq.
    destruct (lower_cp_cases x); lia.
Qed.

Lemma normalize_username_result_shape_witness :
  exists c rest,
    py "@my_name1" = 64 :: c :: rest
    /\ in_range 97 122 c = true
    /\ (4 <= length rest <= 31)%nat
    /\ Forall (fun x => in_range 97 122 x || is_digit x || (x =? 95) = true)
              (c :: rest).
Proof.
  apply (normalize_username_result_shape (py " My_Name1")). reflexivity.
Defined.

Lemma lstrip_space_app ws s :
  Forall (fun c => isspace c = true) ws -> lstrip (ws ++ s) = lstrip s.
Proof. induction 1 as [|c ws Hc _ IH]; [done|]. simpl. by rewrite Hc. Qed.

Lemma lstrip_app_space s ws :
  Forall (fun c => isspace c = true) ws ->
  lstrip (s ++ ws) = match lstrip s with [] => [] | t => t ++ ws end.
Proof.
  intros Hws. induction s as [|c s IH]; simpl.
  - rewrite <- (app_nil_r ws) at 1. by rewrite lstrip_space_app.
  - destruct (isspace c); [exact IH|done].
Qed.

Lemma strip_padding ws1 s ws2 :
  Forall (fun c => isspace c = true) ws1 ->
  Forall (fun c => isspace c = true) ws2 ->
  strip (ws1 ++ s ++ ws2) = strip s.
Proof.
  intros H1 H2. unfold strip. rewrite lstrip_space_app by done.
  rewrite lstrip_app_space by done.
  destruct (lstrip s) as [|c t]; [done|].
  unfold rstrip. rewrite rev_app_distr, lstrip_space_app; [done|].
  rewrite Forall_forall in *. intros x Hx. apply H2.
  by apply list_elem_of_In, in_rev, list_elem_of_In.
Qed.

(** X3.  White space before and after the input does not matter. *)
Theorem normalize_username_ignores_padding (ws1 s ws2 : pystr) :
  Forall (fun c => isspace c = true) ws1 ->
  Forall (fun c => isspace c = true) ws2 ->
  normalize_username (ws1 ++ s ++ ws2) = normalize_username s.
Proof.
  intros H1 H2. unfold normalize_username. by rewrite strip_padding.
Qed.

Lemma normalize_username_ignores_padding_witness :
  normalize_username ([9; 32] ++ py "@Alice_1" ++ [32; 10; 0xA0])
  = normalize_username (py "@Alice_1").
Proof.
  apply normalize_username_ignores_padding; repeat constructor.
Defined.

(** ** [telegram_html_escape] *)

Lemma replace_single a new s :
  replace [a] new s = flat_map (fun c => if c =? a then new else [c]) s.
Proof.
  unfold replace. induction s as [|c s IH]; [done|].
  simpl. rewrite IH, (Z.eqb_sym a c). by destruct (c =? a).
Qed.

Lemma escape_one c :
  flat_map (fun c => if c =? 34 then py "&quot;" else [c])
    (flat_map (fun c => if c =? 38 then py "&amp;" else [c])
       (flat_map (fun c => if c =? 62 then py "&gt;" else [c])
          (if c =? 60 then py "&lt;" else [c])))
  = escape_char c.
Proof.
  unfold escape_char.
  destruct (Z.eqb_spec c 60) as [->|H60]; [reflexivity|].
  simpl. destruct (Z.eqb_spec c 62) as [->|H62]; [reflexivity|].
  simpl. destruct (Z.eqb_spec c 38) as [->|H38]; [reflexivity|].
  simpl. by destruct (Z.eqb_spec c 34) as [->|H34].
Qed.

Lemma escape_flat_map s : telegram_html_escape s = flat_map escape_char s.
Proof.
  unfold telegram_html_escape.
  change (py "<") with [60]. change (py ">") with [62].
  change (py "&") with [38]. rewrite !replace_single.
  induction s as [|c s IH]; [done|].
  cbn [flat_map]. rewrite !flat_map_app, IH. f_equal. apply escape_one.
Qed.

(** X4.  The escape works character by character: ampersand and double
    quote become [&amp;] and [&quot;]; the angle brackets, replaced before
    the ampersand is, come out as [&amp;lt;] and [&amp;gt;]; every other
    character stays. *)
Theorem telegram_html_escape_by_character (s : pystr) :
  telegram_html_escape s = flat_map escape_char s.
Proof.
  unfold telegram_html_escape.
  change (py "<") with [60]. change (py ">") with [62].
  change (py "&") with [38]. rewrite !replace_single.
  induction s as [|c s IH]; [reflexivity|].
  cbn [flat_map]. rewrite !flat_map_app. rewrite IH.
  f_equal. apply escape_one.
Qed.

(** X5.  The escaped text contains no angle bracket and no double
    quote. *)
Theorem telegram_html_escape_no_markup (s : pystr) :
  Forall (fun c => c <> 60 /\ c <> 62 /\ c <> 34) (telegram_html_escape s).
Proof.
  rewrite escape_flat_map. apply Forall_flat_map.
  apply Forall_forall. intros c _. unfold escape_char.
  destruct (Z.eqb_spec c 60); [by repeat constructor|].
  destruct (Z.eqb_spec c 62); [by repeat constructor|].
  destruct (Z.eqb_spec c 38); [by repeat constructor|].
  destruct (Z.eqb_spec c 34); [by repeat constructor|].
  by repeat constructor.
Qed.

(** X6.  An angle bracket and the entity that stands for it are escaped to
    the same text, wherever they occur. *)
Theorem telegram_html_escape_conflates (s t : pystr) :
  telegram_html_escape (s ++ py "<" ++ t)
  = telegram_html_escape (s ++ py "&lt;" ++ t)
  /\ telegram_html_escape (s ++ py ">" ++ t)
     = telegram_html_escape (s ++ py "&gt;" ++ t).
Proof.
  rewrite !escape_flat_map, !flat_map_app. done.
Qed.

(** ** [generate_password] *)

(** X7.  A password has the length asked for, and each of its characters
    is an ASCII letter, a digit or one of the eight symbols. *)
Theorem generate_password_alphabet (draw : nat -> nat) (length : nat) :
  List.length (Password.generate_password draw length) = length
  /\ Forall (fun c => c ∈ Password.chars
                      /\ (is_alpha c || is_digit c = true
                          \/ c ∈ py "!@#$%^&*"))
       (Password.generate_password draw length).
Proof.
  unfold Password.generate_password. split.
  - by rewrite length_map, length_seq.
  - assert (Hall : Forall (fun c => is_alpha c || is_digit c = true
                                    \/ c ∈ py "!@#$%^&*") Password.chars).
    { apply (bool_decide_unpack _). by vm_compute. }
    rewrite Forall_forall in Hall.
    rewrite Forall_map. apply Forall_forall. intros i _. cbv beta.
    assert (Hin : nth (draw i mod List.length Password.chars)
                    Password.chars 0 ∈ Password.chars).
    { apply list_elem_of_In, nth_In. apply Nat.mod_upper_bound. done. }
    split; [exact Hin|]. apply Hall, Hin.
Qed.

(** ** [catch_telegram_errors]: retries, sleeps and rate limits *)

Section WrapperRetries.
Context {V : Type}.
Implicit Types (func : nat -> Outcome V) (e : PyExc).

Lemma wrapper_loop_step func fuel call retry_count slept :
  wrapper_loop (S fuel) func call retry_count slept =
  match func call with
  | Returns v => Some (Result v, slept)
  | Raises e =>
      let retry :=
        if (max_retries <=? S retry_count)%nat then Some (Absent, slept)
        else wrapper_loop fuel func (S call) (S retry_count)
               (slept ++ [backoff (S retry_count)]) in
      if isinstance e Unauthorized then Some (Absent, slept)
      else if isinstance e RetryAfter then
        wrapper_loop fuel func (S call) retry_count
          (slept ++ [default 10%N (exc_retry_after e)])
      else if isinstance e TimedOut || isinstance e NetworkError then retry
      else if isinstance e BadRequest then
        if not_found e then Some (Absent, slept)
        else Some (Propagated e, slept)
      else if isinstance e TelegramError then retry
      else Some (Propagated e, slept)
  end.
Proof. reflexivity. Qed.

Lemma schedule_next retry_count :
  (S retry_count < max_retries)%nat ->
  take retry_count schedule ++ [backoff (S retry_count)]
  = take (S retry_count) schedule.
Proof.
  unfold max_retries. intros H.
  do 4 (destruct retry_count as [|retry_count]; [reflexivity|]). lia.
Qed.

Lemma wrapper_loop_schedule func :
  (forall i, ~ rate_limited (func i)) ->
  forall fuel call retry_count,
    (retry_count < max_retries)%nat ->
    (max_retries - retry_count <= fuel)%nat ->
    exists r k,
      wrapper_loop fuel func call retry_count (take retry_count schedule)
      = Some (r, take k schedule).
Proof.
  intros Hrate. unfold max_retries.
  induction fuel as [|fuel IH]; intros call rc Hrc Hfuel; [lia|].
  rewrite wrapper_loop_step. cbv zeta.
  destruct (func call) as [v|e] eqn:Hcall; [eauto|].
  assert (Hretry : exists r k,
             (if (max_retries <=? S rc)%nat
              then Some (Absent, take rc schedule)
              else wrapper_loop fuel func (S call) (S rc)
                     (take rc schedule ++ [backoff (S rc)]))
             = Some (r, take k schedule)).
  { destruct (Nat.leb_spec max_retries (S rc)) as [|Hlt]; [eauto|].
    rewrite schedule_next by done. unfold max_retries in Hlt. apply IH; lia. }
  destruct (isinstance e Unauthorized); [eauto|].
  destruct (isinstance e RetryAfter) eqn:Hra.
  { exfalso. apply (Hrate call). by rewrite Hcall. }
  destruct (isinstance e TimedOut || isinstance e NetworkError);
    [exact Hretry|].
  destruct (isinstance e BadRequest); [destruct (not_found e); eauto|].
  destruct (isinstance e TelegramError); [exact Hretry|eauto].
Qed.

(** X8.  When no call is answered with a rate limit, the wrapper is done
    after at most five calls, and the sleeps between them are 1, 2, 4 and
    8, in this order: the cap of 30 is never reached. *)
Theorem wrapper_backoff_schedule func :
  (forall i, ~ rate_limited (func i)) ->
  exists r k, wrapper 5 func = Some (r, take k schedule).
Proof.
  intros Hrate. unfold wrapper.
  apply (wrapper_loop_schedule func Hrate 5 0 0); unfold max_retries; lia.
Qed.

Lemma wrapper_loop_first_return func fuel retry_count slept v slept' :
  wrapper_loop fuel func (length slept) retry_count slept
  = Some (Result v, slept') ->
  func (length slept') = Returns v
  /\ forall i, (length slept <= i < length slept')%nat ->
               exists e, func i = Raises e.
Proof.
  revert retry_count slept.
  induction fuel as [|fuel IH]; intros rc slept; [done|].
  rewrite wrapper_loop_step. cbv zeta.
  destruct (func (length slept)) as [v'|e] eqn:Hcall.
  { intros [= <- <-]. split; [done|]. intros i Hi. lia. }
  assert (Hnext : forall rc' d,
             wrapper_loop fuel func (S (length slept)) rc' (slept ++ [d])
             = Some (Result v, slept') ->
             func (length slept') = Returns v
             /\ forall i, (length slept <= i < length slept')%nat ->
                          exists e, func i = Raises e).
  { intros rc' d Hrun.
    replace (S (length slept)) with (length (slept ++ [d])) in Hrun
      by (rewrite length_app; simpl; lia).
    apply IH in Hrun as [Hv Hbefore]. split; [done|].
    rewrite length_app in Hbefore. simpl in Hbefore. intros i Hi.
    destruct (decide (i = length slept)) as [->|]; [eauto|].
    apply Hbefore. lia. }
  assert (Hretry : (if (max_retries <=? S rc)%nat then Some (Absent, slept)
                    else wrapper_loop fuel func (S (length slept)) (S rc)
                           (slept ++ [backoff (S rc)]))
                   = Some (Result v, slept') ->
                   func (length slept') = Returns v
                   /\ forall i, (length slept <= i < length slept')%nat ->
                                exists e, func i = Raises e).
  { destruct (max_retries <=? S rc)%nat; [done|apply Hnext]. }
  destruct (isinstance e Unauthorized); [done|].
  destruct (isinstance e RetryAfter); [apply Hnext|].
  destruct (isinstance e TimedOut || isinstance e NetworkError);
    [exact Hretry|].
  destruct (isinstance e BadRequest); [by destruct (not_found e)|].
  destruct (isinstance e TelegramError); [exact Hretry|done].
Qed.

(** X9.  A value the wrapper returns is the value of the first call that
    returned; every call before it raised, and each of them was followed
    by one sleep. *)
Theorem wrapper_returns_first_success func fuel v slept :
  wrapper fuel func = Some (Result v, slept) ->
  func (length slept) = Returns v
  /\ forall i, (i < length slept)%nat -> exists e, func i = Raises e.
Proof.
  unfold wrapper. intros Hrun.
  apply (wrapper_loop_first_return func fuel 0 []) in Hrun as [Hv Hbefore].
  split; [done|]. intros i Hi. apply Hbefore. simpl. lia.
Qed.

Lemma wrapper_loop_rate_limits func k :
  forall fuel call retry_count slept,
    (forall i, (call <= i < call + k)%nat ->
       exists e, func i = Raises e
                 /\ isinstance e Unauthorized = false
                 /\ isinstance e RetryAfter = true) ->
    wrapper_loop (k + fuel) func call retry_count slept
    = wrapper_loop fuel func (call + k) retry_count
        (slept ++ map (fun i => wait_of (func i)) (seq call k)).
Proof.
  induction k as [|k IH]; intros fuel call rc slept Hrate.
  - simpl. by rewrite Nat.add_0_r, app_nil_r.
  - change (S k + fuel)%nat with (S (k + fuel)).
    rewrite wrapper_loop_step. cbv zeta.
    destruct (Hrate call) as (e & Hcall & Hun & Hra); [lia|].
    rewrite Hcall, Hun, Hra, IH by (intros i Hi; apply Hrate; lia).
    rewrite <- app_assoc. simpl. rewrite Hcall. simpl.
    by replace (call + S k)%nat with (S (call + k)) by lia.
Qed.

(** X10.  Rate limits do not use up the retry budget: after [k] calls
    answered with a rate limit the loop goes on with the retry count still
    at zero, having slept exactly the [k] waits the platform asked for. *)
Theorem wrapper_rate_limits_not_counted func (k fuel : nat) :
  (forall i, (i < k)%nat ->
     exists e, func i = Raises e
               /\ isinstance e Unauthorized = false
               /\ isinstance e RetryAfter = true) ->
  wrapper (k + fuel) func
  = wrapper_loop fuel func k 0 (map (fun i => wait_of (func i)) (seq 0 k)).
Proof.
  intros Hrate. unfold wrapper.
  rewrite wrapper_loop_rate_limits by (intros i Hi; apply Hrate; lia). done.
Qed.

End WrapperRetries.

Lemma wrapper_backoff_schedule_witness :
  exists r k, wrapper 5 always_timed_out = Some (r, take k schedule).
Proof.
  apply (wrapper_backoff_schedule always_timed_out).
  intros i H. vm_compute in H. discriminate.
Defined.

Example wrapper_gives_up_after_five :
  wrapper 5 always_timed_out = Some (Absent, [1; 2; 4; 8]%N).
Proof. reflexivity. Qed.

Lemma wrapper_returns_first_success_witness :
  rate_limited_once (length [3%N]) = Returns 42.
Proof.
  apply (wrapper_returns_first_success rate_limited_once 2 42 [3%N]).
  reflexivity.
Defined.

Lemma wrapper_rate_limits_not_counted_witness :
  wrapper (1 + 1) rate_limited_once
  = wrapper_loop 1 rate_limited_once 1 0
      (map (fun i => wait_of (rate_limited_once i)) (seq 0 1)).
Proof.
  apply (wrapper_rate_limits_not_counted rate_limited_once 1 1).
  intros [|i] Hi; [|lia]. exists (retry_after 3). repeat split.
Defined.

Lemma wrapper_loop_propagated_witness :
  (exists i, always_value_error i = Raises (value_error (py "invalid literal")))
  /\ ~ absorbed (value_error (py "invalid literal")).
Proof.
  apply (wrapper_loop_propagated always_value_error 1 0 0 []
           (value_error (py "invalid literal")) []).
  reflexivity.
Defined.

Lemma wrapper_loop_rate_limited_forever_witness :
  wrapper_loop 1000 always_rate_limited 0 0 [] = None.
Proof.
  apply (wrapper_loop_rate_limited_forever always_rate_limited).
  intros i. exists (retry_after 1). repeat split.
Defined.

(** ** The tables: insert and look up *)

Lemma find_snoc {A} (f : A -> bool) l x :
  List.find f (l ++ [x])
  = match List.find f l with
    | Some y => Some y
    | None => if f x then Some x else None
    end.
Proof.
  induction l as [|a l IH]; simpl; [done|]. by destruct (f a).
Qed.

(** X13.  A row inserted into [waitlist_entries] is found under its
    handle, with the fields given and the next id; the rows under other
    handles are found as before; and a second insert of the same handle
    fails with an [IntegrityError]. *)
Theorem insert_entry_then_lookup (d d' : Store) (u : Z) (name pw : pystr)
    (t : Z) :
  insert_entry d u name pw t = inl d' ->
  entry_by_username d' name
  = Some {| id := waitlist_seq d + 1; user_id := u; wanted_username := name;
            password := pw; created_at := t |}
  /\ (forall other, other <> name ->
        entry_by_username d' other = entry_by_username d other)
  /\ (forall u2 pw2 t2,
        exists e, insert_entry d' u2 name pw2 t2 = inr e
                  /\ isinstance e IntegrityError = true)
  /\ admins d' = admins d.
Proof.
  unfold insert_entry.
  destruct (entry_by_username d name) as [?|] eqn:Hfree; [done|].
  intros [= <-].
  assert (Hfound : entry_by_username
            {| admins := admins d;
               waitlist_entries :=
                 waitlist_entries d
                 ++ [{| id := waitlist_seq d + 1; user_id := u;
                        wanted_username := name; password := pw;
                        created_at := t |}];
               waitlist_seq := waitlist_seq d + 1 |} name
            = Some {| id := waitlist_seq d + 1; user_id := u;
                      wanted_username := name; password := pw;
                      created_at := t |}).
  { unfold entry_by_username in *. cbn [waitlist_entries].
    rewrite find_snoc, Hfree. cbn [wanted_username].
    by rewrite bool_decide_eq_true_2. }
  split; [done|]. split; [|split; [|done]].
  - intros other Hother. unfold entry_by_username. cbn [waitlist_entries].
    rewrite find_snoc. cbn [wanted_username].
    rewrite (bool_decide_eq_false_2 (name = other)) by done.
    by destruct (List.find _ _).
  - intros u2 pw2 t2. rewrite Hfound. eexists. split; reflexivity.
Qed.

Lemma insert_entry_then_lookup_witness :
  entry_by_username
    {| admins := []; waitlist_entries := [row 1 7 (py "@alice") (py "pw") 5];
       waitlist_seq := 1 |} (py "@alice")
  = Some (row 1 7 (py "@alice") (py "pw") 5).
Proof.
  apply (insert_entry_then_lookup Db.empty _ 7 (py "@alice") (py "pw") 5).
  reflexivity.
Defined.

Lemma insert_admin_inr d u e :
  insert_admin d u = inr e -> is_Some (admin_by_user d u).
Proof. unfold insert_admin. destruct (admin_by_user d u); [eauto|done]. Qed.

(** X14.  A user inserted into [admins] is found there and the count
    grows by one; a second insert of the same user fails with an
    [IntegrityError]; the waitlist is untouched. *)
Theorem insert_admin_then_lookup (d d' : Store) (u : Z) :
  insert_admin d u = inl d' ->
  admin_by_user d' u = Some {| admin_user_id := u |}
  /\ admin_count d' = S (admin_count d)
  /\ (exists e, insert_admin d' u = inr e
                /\ isinstance e IntegrityError = true)
  /\ waitlist_entries d' = waitlist_entries d.
Proof.
  unfold insert_admin.
  destruct (admin_by_user d u) as [?|] eqn:Hfree; [done|].
  intros [= <-].
  assert (Hfound : admin_by_user
            {| admins := admins d ++ [{| admin_user_id := u |}];
               waitlist_entries := waitlist_entries d;
               waitlist_seq := waitlist_seq d |} u
            = Some {| admin_user_id := u |}).
  { unfold admin_by_user in *. cbn [admins].
    rewrite find_snoc, Hfree. cbn [admin_user_id]. by rewrite Z.eqb_refl. }
  split; [done|]. split; [|split; [|done]].
  - unfold admin_count. cbn [admins]. rewrite length_app. simpl. lia.
  - rewrite Hfound. eexists. split; reflexivity.
Qed.

Lemma insert_admin_then_lookup_witness :
  admin_by_user
    {| admins := [{| admin_user_id := 7 |}]; waitlist_entries := [];
       waitlist_seq := 0 |} 7
  = Some {| admin_user_id := 7 |}.
Proof.
  apply (insert_admin_then_lookup Db.empty _ 7). reflexivity.
Defined.

(** ** The loop body: the session, the addressee, the export *)

(** X15.  A message from a private chat is processed inside one session:
    the log gains [OpenSession], then reads and writes, then
    [CloseSession], on every way out of the loop body, exceptions
    included. *)
Theorem session_closed_on_every_path api conc env (update : Update)
    (m : Message) (w : World) :
  message update = Some m ->
  chat_type m = private ->
  let w' := (handle_update api conc env update w).2 in
  exists ops,
    sql w' = sql w ++ [OpenSession] ++ ops ++ [CloseSession]
    /\ Forall (fun op => op <> OpenSession /\ op <> CloseSession) ops.
Proof.
  intros Hm Hty. cbv zeta.
  assert (exists ops,
             sql (handle_update api conc env update w).2
             = (sql w ++ OpenSession :: ops) ++ [CloseSession]
             /\ Forall (fun op => op <> OpenSession /\ op <> CloseSession) ops)
    as (ops & Hsql & Hops).
  { branches; try done.
    all: eexists; split;
      [ f_equal; rewrite <- ?app_assoc; simpl; reflexivity
      | repeat constructor; done ]. }
  exists ops. split; [|done]. rewrite Hsql, <- app_assoc. done.
Qed.

Lemma session_closed_on_every_path_witness :
  exists ops,
    sql (handle_update reliable_api [] (env_at 0)
           (private_text 5 5 (py "alice")) (awaiting 5)).2
    = sql (awaiting 5) ++ [OpenSession] ++ ops ++ [CloseSession]
    /\ Forall (fun op => op <> OpenSession /\ op <> CloseSession) ops.
Proof.
  apply (session_closed_on_every_path reliable_api [] (env_at 0)
           (private_text 5 5 (py "alice"))
           {| chat_id := 5; chat_type := private; from_user := Some 5;
              text := Some (py "alice") |} (awaiting 5)); reflexivity.
Defined.

(** X16.  The export goes to admins only: whenever a document is sent,
    the sender was in [admins] when the update arrived, the text was the
    download label, and the document goes to the chat of the message. *)
Theorem document_only_for_admin api conc env (update : Update) (w : World)
    (chat : Z) (document filename caption : pystr) :
  send_document chat document filename caption
    ∈ calls_since w (handle_update api conc env update w).2 ->
  exists m uid,
    message update = Some m
    /\ chat_type m = private
    /\ from_user m = Some uid
    /\ is_Some (admin_by_user (db w) uid)
    /\ strip (default [] (text m)) = strings.msg_admin_download
    /\ chat = chat_id m.
Proof.
  branches; inserted; new_calls.
  all: rewrite ?elem_of_app, ?elem_of_cons, ?elem_of_nil; intros Hin.
  all: repeat match goal with
         | H : _ \/ _ |- _ => destruct H
         | H : send_document _ _ _ _ = send_message _ _ _ |- _ =>
             discriminate H
         end; try done.
  all: match goal with
       | H : send_document _ _ _ _ = send_document _ _ _ _ |- _ =>
           injection H as -> _ _ _
       end.
  all: do 2 eexists; repeat split; try done.
  all: by apply dec_stable.
Qed.

Lemma document_only_for_admin_witness :
  exists m uid,
    message (private_text 1 1 strings.msg_admin_download) = Some m
    /\ chat_type m = private
    /\ from_user m = Some uid
    /\ is_Some (admin_by_user (db three_rows) uid)
    /\ strip (default [] (text m)) = strings.msg_admin_download
    /\ 1 = chat_id m.
Proof.
  apply (document_only_for_admin reliable_api [] (env_at 0)
           (private_text 1 1 strings.msg_admin_download) three_rows 1
           (py "1. @bobby pwB" ++ [10] ++ py "2. @alice pwA" ++ [10]
            ++ py "3. @carol pwC")
           (py "users.txt") strings.msg_file_caption).
  rewrite export_follows_created_at. apply list_elem_of_here.
Defined.

(** X17.  Processing a message concerns its chat alone: every call made
    on [bot] is addressed to that chat, and the conversation state of
    every other chat is as before. *)
Theorem only_the_chat_of_the_message api conc env (update : Update)
    (m : Message) (w : World) :
  message update = Some m ->
  let w' := (handle_update api conc env update w).2 in
  Forall (fun c => call_chat c = chat_id m) (calls_since w w')
  /\ (forall chat, chat <> chat_id m ->
        user_states w' !! chat = user_states w !! chat).
Proof.
  intros Hm. cbv zeta. branches; new_calls.
  all: split; [by repeat constructor|].
  all: intros chat Hne;
       rewrite ?lookup_insert_ne, ?lookup_delete_ne by done; done.
Qed.

Lemma only_the_chat_of_the_message_witness :
  let w' := (handle_update reliable_api [] (env_at 0)
               (private_text 5 5 (py "alice")) (awaiting 5)).2 in
  Forall (fun c => call_chat c = 5) (calls_since (awaiting 5) w')
  /\ (forall chat, chat <> 5 ->
        user_states w' !! chat = user_states (awaiting 5) !! chat).
Proof.
  apply (only_the_chat_of_the_message reliable_api [] (env_at 0)
           (private_text 5 5 (py "alice"))
           {| chat_id := 5; chat_type := private; from_user := Some 5;
              text := Some (py "alice") |} (awaiting 5)).
  reflexivity.
Defined.

(** ** The loop body: the registration path *)

Lemma not_not_private (m : Message) :
  chat_type m = private -> bool_decide (chat_type m <> private) = false.
Proof. intros H. apply bool_decide_eq_false_2. intros Hne. by apply Hne. Qed.

Lemma entry_by_username_committed conc d name :
  entry_by_username (committed_elsewhere conc d) name = None ->
  entry_by_username d name = None.
Proof.
  unfold entry_by_username, committed_elsewhere. cbn [waitlist_entries].
  intros Hnone. destruct (List.find _ (waitlist_entries d)) as [e|] eqn:Hf;
    [|done].
  apply find_some in Hf as [Hin Hp].
  eapply find_none in Hnone; [|apply in_or_app; left; exact Hin]. congruence.
Qed.

(** X18.  A chat that awaits a handle sends a text that normalises to a
    handle nobody has: one row is appended for the sender, with that
    handle, a fresh 12-character password, the next id and the current
    time; the chat's state is removed; the one call is the confirmation
    with the user keyboard. *)
Theorem registration_appends_row api conc env (update : Update)
    (m : Message) (uid : Z) (name : pystr) (w : World) :
  message update = Some m ->
  chat_type m = private ->
  from_user m = Some uid ->
  user_states w !! chat_id m = Some awaiting_username ->
  normalize_username (strip (default [] (text m))) = Some name ->
  entry_by_username (committed_elsewhere conc (db w)) name = None ->
  let w' := (handle_update api conc env update w).2 in
  waitlist_entries (db w')
  = waitlist_entries (db w) ++ conc
    ++ [{| id := waitlist_seq (db w) + Z.of_nat (length conc) + 1;
           user_id := uid; wanted_username := name;
           password := Password.generate_password (draw env) 12;
           created_at := utcnow env |}]
  /\ admins (db w') = admins (db w)
  /\ user_states w' = delete (chat_id m) (user_states w)
  /\ calls_since w w'
     = [send_message (chat_id m) strings.msg_registered (Some user_keyboard)].
Proof.
  intros Hm Hty Hfrom Hstate Hnorm Hfree. cbv zeta.
  pose proof (entry_by_username_committed _ _ _ Hfree) as Hcheck.
  pose proof (not_not_private m Hty) as Hprivate.
  destruct (normalized_is_no_command _ _ Hnorm) as (H1 & H2 & H3 & H4).
  assert (Hstart : bool_decide (strip (default [] (text m)) = py "/start")
                   = false) by by apply bool_decide_eq_false_2.
  assert (Hsoon : bool_decide (is_Some (entry_by_user (db w) uid))
                  && bool_decide (strip (default [] (text m))
                                  = strings.msg_coming_soon_btn) = false).
  { rewrite (bool_decide_eq_false_2 (_ = _)) by done. apply andb_false_r. }
  assert (Hlabel : bool_decide (is_Some (admin_by_user (db w) uid))
                   && bool_decide (strip (default [] (text m))
                                   = strings.msg_admin_download) = false).
  { rewrite (bool_decide_eq_false_2 (_ = _)) by done. apply andb_false_r. }
  assert (Hwaiting : bool_decide (user_states w !! chat_id m
                                  = Some awaiting_username)
                     && negb (bool_decide (strip (default [] (text m)) = []))
                     = true).
  { rewrite bool_decide_eq_true_2, bool_decide_eq_false_2 by done. done. }
  branches.
  all: match goal with
       | H : insert_entry _ _ _ _ _ = _ |- _ =>
           unfold insert_entry in H; rewrite Hfree in H; simplify_eq
       end.
  all: new_calls; cbn [waitlist_entries admins committed_elsewhere].
  all: by rewrite <- app_assoc.
Qed.

Lemma registration_appends_row_witness :
  let w' := (handle_update reliable_api [] (env_at 100)
               (private_text 5 5 (py "alice")) (awaiting 5)).2 in
  waitlist_entries (db w')
  = [] ++ [] ++ [row (0 + 0 + 1) 5 (py "@alice")
                   (Password.generate_password (draw (env_at 100)) 12) 100]
  /\ admins (db w') = admins (db (awaiting 5))
  /\ user_states w' = delete 5 (user_states (awaiting 5))
  /\ calls_since (awaiting 5) w'
     = [send_message 5 strings.msg_registered (Some user_keyboard)].
Proof.
  apply (registration_appends_row reliable_api [] (env_at 100)
           (private_text 5 5 (py "alice"))
           {| chat_id := 5; chat_type := private; from_user := Some 5;
              text := Some (py "alice") |} 5 (py "@alice") (awaiting 5));
    reflexivity.
Defined.

(** X19.  A chat that awaits a handle sends a text that is no command and
    does not normalise: the one call is the "invalid" reply; the chat
    still awaits a handle and the database is as before. *)
Theorem invalid_handle_asks_again api conc env (update : Update)
    (m : Message) (uid : Z) (w : World) :
  message update = Some m ->
  chat_type m = private ->
  from_user m = Some uid ->
  user_states w !! chat_id m = Some awaiting_username ->
  strip (default [] (text m)) <> [] ->
  strip (default [] (text m)) <> py "/start" ->
  strip (default [] (text m)) <> strings.msg_coming_soon_btn ->
  strip (default [] (text m)) <> strings.msg_admin_download ->
  normalize_username (strip (default [] (text m))) = None ->
  let w' := (handle_update api conc env update w).2 in
  calls_since w w'
  = [send_message (chat_id m) strings.msg_username_invalid None]
  /\ user_states w' = user_states w
  /\ db w' = db w.
Proof.
  intros Hm Hty Hfrom Hstate H4 H1 H2 H3 Hnorm. cbv zeta.
  pose proof (not_not_private m Hty) as Hprivate.
  assert (Hstart : bool_decide (strip (default [] (text m)) = py "/start")
                   = false) by by apply bool_decide_eq_false_2.
  assert (Hsoon : bool_decide (is_Some (entry_by_user (db w) uid))
                  && bool_decide (strip (default [] (text m))
                                  = strings.msg_coming_soon_btn) = false).
  { rewrite (bool_decide_eq_false_2 (_ = _)) by done. apply andb_false_r. }
  assert (Hlabel : bool_decide (is_Some (admin_by_user (db w) uid))
                   && bool_decide (strip (default [] (text m))
                                   = strings.msg_admin_download) = false).
  { rewrite (bool_decide_eq_false_2 (_ = _)) by done. apply andb_false_r. }
  assert (Hwaiting : bool_decide (user_states w !! chat_id m
                                  = Some awaiting_username)
                     && negb (bool_decide (strip (default [] (text m)) = []))
                     = true).
  { rewrite bool_decide_eq_true_2, bool_decide_eq_false_2 by done. done. }
  branches; new_calls; done.
Qed.

Lemma invalid_handle_asks_again_witness :
  let w' := (handle_update reliable_api [] (env_at 100)
               (private_text 5 5 (py "no!")) (awaiting 5)).2 in
  calls_since (awaiting 5) w'
  = [send_message 5 strings.msg_username_invalid None]
  /\ user_states w' = user_states (awaiting 5)
  /\ db w' = db (awaiting 5).
Proof.
  apply (invalid_handle_asks_again reliable_api [] (env_at 100)
           (private_text 5 5 (py "no!"))
           {| chat_id := 5; chat_type := private; from_user := Some 5;
              text := Some (py "no!") |} 5 (awaiting 5));
    first [reflexivity | by vm_compute].
Defined.

(** X20.  A chat that awaits a handle sends a text that normalises to a
    handle already in the table: the one call is the "taken" reply; the
    chat still awaits a handle and the database is as before. *)
Theorem taken_handle_asks_again api conc env (update : Update)
    (m : Message) (uid : Z) (name : pystr) (w : World) :
  message update = Some m ->
  chat_type m = private ->
  from_user m = Some uid ->
  user_states w !! chat_id m = Some awaiting_username ->
  normalize_username (strip (default [] (text m))) = Some name ->
  is_Some (entry_by_username (db w) name) ->
  let w' := (handle_update api conc env update w).2 in
  calls_since w w'
  = [send_message (chat_id m) strings.msg_username_taken None]
  /\ user_states w' = user_states w
  /\ db w' = db w.
Proof.
  intros Hm Hty Hfrom Hstate Hnorm [e Htaken]. cbv zeta.
  pose proof (not_not_private m Hty) as Hprivate.
  destruct (normalized_is_no_command _ _ Hnorm) as (H1 & H2 & H3 & H4).
  assert (Hstart : bool_decide (strip (default [] (text m)) = py "/start")
                   = false) by by apply bool_decide_eq_false_2.
  assert (Hsoon : bool_decide (is_Some (entry_by_user (db w) uid))
                  && bool_decide (strip (default [] (text m))
                                  = strings.msg_coming_soon_btn) = false).
  { rewrite (bool_decide_eq_false_2 (_ = _)) by done. apply andb_false_r. }
  assert (Hlabel : bool_decide (is_Some (admin_by_user (db w) uid))
                   && bool_decide (strip (default [] (text m))
                                   = strings.msg_admin_download) = false).
  { rewrite (bool_decide_eq_false_2 (_ = _)) by done. apply andb_false_r. }
  assert (Hwaiting : bool_decide (user_states w !! chat_id m
                                  = Some awaiting_username)
                     && negb (bool_decide (strip (default [] (text m)) = []))
                     = true).
  { rewrite bool_decide_eq_true_2, bool_decide_eq_false_2 by done. done. }
  branches; new_calls; done.
Qed.

Lemma taken_handle_asks_again_witness :
  let w' := (handle_update reliable_api [] (env_at 200)
               (private_text 1001 1001 (py "MY_NAME1")) after_two_senders).2 in
  calls_since after_two_senders w'
  = [send_message 1001 strings.msg_username_taken None]
  /\ user_states w' = user_states after_two_senders
  /\ db w' = db after_two_senders.
Proof.
  apply (taken_handle_asks_again reliable_api [] (env_at 200)
           (private_text 1001 1001 (py "MY_NAME1"))
           {| chat_id := 1001; chat_type := private; from_user := Some 1001;
              text := Some (py "MY_NAME1") |} 1001 (py "@my_name1")
           after_two_senders);
    first [reflexivity | by vm_compute; eauto].
Defined.



(** X22.  The "coming soon" label from a registered sender is answered
    with the information text, whatever the state of the chat; states and
    database are as before. *)
Theorem coming_soon_answered api conc env (update : Update)
    (m : Message) (uid : Z) (w : World) :
  message update = Some m ->
  chat_type m = private ->
  from_user m = Some uid ->
  strip (default [] (text m)) = strings.msg_coming_soon_btn ->
  is_Some (entry_by_user (db w) uid) ->
  let w' := (handle_update api conc env update w).2 in
  calls_since w w'
  = [send_message (chat_id m) strings.msg_coming_soon_response None]
  /\ user_states w' = user_states w
  /\ db w' = db w.
Proof.
  intros Hm Hty Hfrom Htext Hentry. cbv zeta.
  pose proof (not_not_private m Hty) as Hprivate.
  assert (Hstart : bool_decide (strip (default [] (text m)) = py "/start")
                   = false).
  { apply bool_decide_eq_false_2. rewrite Htext. intros H. by vm_compute in H. }
  assert (Hsoon : bool_decide (is_Some (entry_by_user (db w) uid))
                  && bool_decide (strip (default [] (text m))
                                  = strings.msg_coming_soon_btn) = true).
  { by rewrite !bool_decide_eq_true_2. }
  branches; new_calls; done.
Qed.

Lemma coming_soon_answered_witness :
  let w' := (handle_update reliable_api [] (env_at 0)
               (private_text 10 10 strings.msg_coming_soon_btn) three_rows).2 in
  calls_since three_rows w'
  = [send_message 10 strings.msg_coming_soon_response None]
  /\ user_states w' = user_states three_rows
  /\ db w' = db three_rows.
Proof.
  apply (coming_soon_answered reliable_api [] (env_at 0)
           (private_text 10 10 strings.msg_coming_soon_btn)
           {| chat_id := 10; chat_type := private; from_user := Some 10;
              text := Some strings.msg_coming_soon_btn |} 10 three_rows);
    first [reflexivity | by vm_compute; eauto].
Defined.

(** ** The loop body: [/start] *)

(** X23.  [/start] from a registered sender who is not an admin, with an
    admin in place: the state of the chat is removed and the one call is
    the welcome back with the user keyboard; the database is as before. *)
Theorem start_by_registered_user api conc env (update : Update)
    (m : Message) (uid : Z) (w : World) :
  message update = Some m ->
  chat_type m = private ->
  from_user m = Some uid ->
  strip (default [] (text m)) = py "/start" ->
  is_Some (entry_by_user (db w) uid) ->
  admin_by_user (db w) uid = None ->
  admin_count (db w) <> 0%nat ->
  let w' := (handle_update api conc env update w).2 in
  calls_since w w'
  = [send_message (chat_id m) strings.msg_welcome_back (Some user_keyboard)]
  /\ user_states w' = delete (chat_id m) (user_states w)
  /\ db w' = db w.
Proof.
  intros Hm Hty Hfrom Htext Hentry Hadmin Hcount. cbv zeta.
  pose proof (not_not_private m Hty) as Hprivate.
  assert (Hstart : bool_decide (strip (default [] (text m)) = py "/start")
                   = true) by by apply bool_decide_eq_true_2.
  assert (Hzero : (admin_count (db w) =? 0)%nat = false)
    by by apply Nat.eqb_neq.
  assert (His : bool_decide (is_Some (entry_by_user (db w) uid)) = true)
    by by apply bool_decide_eq_true_2.
  assert (Hnot : bool_decide (is_Some (admin_by_user (db w) uid)) = false).
  { apply bool_decide_eq_false_2. rewrite Hadmin. by intros [? ?]. }
  unfold_loop. rewrite Hm. reduce_world. rewrite Hprivate, Hfrom.
  reduce_world. rewrite Hstart, Hzero. reduce_world. rewrite Hnot, His.
  reduce_world. destruct (api _ _); reduce_world; new_calls; done.
Qed.

Lemma start_by_registered_user_witness :
  let w' := (handle_update reliable_api [] (env_at 0)
               (private_text 10 10 (py "/start")) three_rows).2 in
  calls_since three_rows w'
  = [send_message 10 strings.msg_welcome_back (Some user_keyboard)]
  /\ user_states w' = delete 10 (user_states three_rows)
  /\ db w' = db three_rows.
Proof.
  apply (start_by_registered_user reliable_api [] (env_at 0)
           (private_text 10 10 (py "/start"))
           {| chat_id := 10; chat_type := private; from_user := Some 10;
              text := Some (py "/start") |} 10 three_rows);
    first [reflexivity | by vm_compute; eauto].
Defined.

(** X24.  [/start] with no admin in the table: the sender becomes the one
    admin and the first call is the "first admin" notice, whatever the
    calls on [bot] do; the waitlist is untouched.  When the calls return,
    a second call follows: the admin menu for a sender with an entry, the
    prompt for a handle otherwise, the chat then awaiting one. *)
Theorem first_start_promotes api conc env (update : Update)
    (m : Message) (uid : Z) (w : World) :
  message update = Some m ->
  chat_type m = private ->
  from_user m = Some uid ->
  strip (default [] (text m)) = py "/start" ->
  admins (db w) = [] ->
  let w' := (handle_update api conc env update w).2 in
  admins (db w') = [{| admin_user_id := uid |}]
  /\ waitlist_entries (db w') = waitlist_entries (db w)
  /\ head (calls_since w w')
     = Some (send_message (chat_id m) strings.msg_first_admin None)
  /\ ((forall n c, api n c = None) ->
      match entry_by_user (db w) uid with
      | Some _ =>
          calls_since w w'
          = [send_message (chat_id m) strings.msg_first_admin None;
             send_message (chat_id m) strings.msg_admin_menu
               (Some admin_keyboard)]
          /\ user_states w' !! chat_id m = None
      | None =>
          calls_since w w'
          = [send_message (chat_id m) strings.msg_first_admin None;
             send_message (chat_id m) strings.msg_ask_username None]
          /\ user_states w' !! chat_id m = Some awaiting_username
      end).
Proof.
  intros Hm Hty Hfrom Htext Hnone. cbv zeta.
  pose proof (not_not_private m Hty) as Hprivate.
  assert (Hstart : bool_decide (strip (default [] (text m)) = py "/start")
                   = true) by by apply bool_decide_eq_true_2.
  assert (Hzero : (admin_count (db w) =? 0)%nat = true).
  { unfold admin_count. by rewrite Hnone. }
  assert (Hins : insert_admin (db w) uid
                 = inl {| admins := [{| admin_user_id := uid |}];
                          waitlist_entries := waitlist_entries (db w);
                          waitlist_seq := waitlist_seq (db w) |}).
  { unfold insert_admin, admin_by_user. by rewrite Hnone. }
  unfold_loop. rewrite Hm. reduce_world. rewrite Hprivate, Hfrom.
  reduce_world. rewrite Hstart, Hzero. reduce_world. rewrite Hins.
  reduce_world.
  destruct (api _ _) eqn:Hfirst; reduce_world.
  { new_calls. cbn [db admins waitlist_entries]. do 3 (split; [done|]).
    intros Hok. by rewrite Hok in Hfirst. }
  assert (Hsecond : forall c e,
             api (length (sent w ++ [send_message (chat_id m)
                                       strings.msg_first_admin None])) c
             = Some e ->
             ~ (forall n c, api n c = None)).
  { intros c e He Hok. by rewrite Hok in He. }
  destruct (entry_by_user (db w) uid) as [e|] eqn:Hentry.
  - rewrite (bool_decide_eq_true_2 (is_Some (Some e))) by eauto.
    reduce_world.
    match goal with
    | |- context [api ?n ?c] => destruct (api n c) eqn:Hcall
    end; reduce_world; new_calls; cbn [db admins waitlist_entries].
    + do 3 (split; [done|]). intros Hok. by apply Hsecond in Hcall.
    + do 3 (split; [done|]). intros _. split; [done|]. apply lookup_delete_eq.
  - rewrite (bool_decide_eq_false_2 (is_Some None)) by (by intros [? ?]).
    reduce_world.
    match goal with
    | |- context [api ?n ?c] => destruct (api n c) eqn:Hcall
    end; reduce_world; new_calls; cbn [db admins waitlist_entries].
    + do 3 (split; [done|]). intros Hok. by apply Hsecond in Hcall.
    + do 3 (split; [done|]). intros _. split; [done|]. apply lookup_insert_eq.
Qed.

Lemma first_start_promotes_witness :
  let w' := (handle_update reliable_api [] (env_at 0)
               (private_text 1001 1001 (py "/start")) initial).2 in
  admins (db w') = [{| admin_user_id := 1001 |}]
  /\ waitlist_entries (db w') = waitlist_entries (db initial)
  /\ head (calls_since initial w')
     = Some (send_message 1001 strings.msg_first_admin None).
Proof.
  destruct (first_start_promotes reliable_api [] (env_at 0)
              (private_text 1001 1001 (py "/start"))
              {| chat_id := 1001; chat_type := private;
                 from_user := Some 1001; text := Some (py "/start") |}
              1001 initial) as (Ha & He & Hh & _); try reflexivity.
  repeat split; assumption.
Defined.

(** ** The loop, with the bot as the only writer *)

Lemma normalized_is_fixed t name :
  normalize_username t = Some name -> normalize_username name = Some name.
Proof.
  intros (x & _ & Hv & ->)%normalize_username_accepted.
  apply normalize_username_accepted. exists (lower x).
  split; [right|split; [by apply valid_handle_lower|by rewrite lower_idem]].
  apply strip_nospace. constructor; [done|].
  apply valid_handle_lower in Hv as (_ & _ & Hall).
  eapply Forall_impl; [exact Hall|]. intros c Hc. by apply word_not_space.
Qed.

Lemma generate_password_in_chars draw n :
  length (Password.generate_password draw n) = n
  /\ Forall (fun c => c ∈ Password.chars) (Password.generate_password draw n).
Proof.
  unfold Password.generate_password. split.
  - by rewrite length_map, length_seq.
  - rewrite Forall_map. apply Forall_forall. intros i _. cbv beta.
    apply list_elem_of_In, nth_In, Nat.mod_upper_bound. done.
Qed.

Lemma entry_by_username_None d name :
  entry_by_username d name = None
  <-> name ∉ map wanted_username (waitlist_entries d).
Proof.
  unfold entry_by_username. rewrite list_elem_of_In, in_map_iff. split.
  - intros Hnone (e & <- & Hin).
    eapply find_none in Hnone; [|exact Hin]. simpl in Hnone.
    by apply bool_decide_eq_false in Hnone.
  - intros Hno. destruct (List.find _ _) as [e|] eqn:Hf; [|done].
    apply find_some in Hf as [Hin Heq]. apply bool_decide_eq_true in Heq.
    exfalso. apply Hno. by exists e.
Qed.

Lemma committed_elsewhere_nil d name :
  entry_by_username (committed_elsewhere [] d) name = entry_by_username d name.
Proof.
  unfold entry_by_username, committed_elsewhere. cbn [waitlist_entries].
  by rewrite app_nil_r.
Qed.

(** One update leaves the waitlist as it is or appends one row, under a
    handle absent so far and in the form the registration path gives. *)
Lemma handle_update_rows api env update w :
  let w' := (handle_update api [] env update w).2 in
  waitlist_entries (db w') = waitlist_entries (db w)
  \/ exists row,
       waitlist_entries (db w') = waitlist_entries (db w) ++ [row]
       /\ entry_by_username (db w) (wanted_username row) = None
       /\ well_formed row.
Proof.
  cbv zeta. branches.
  all: try (left; reflexivity).
  all: try (left; cbn [waitlist_entries committed_elsewhere];
            by rewrite app_nil_r).
  all: try (left;
            match goal with
            | H : insert_admin _ _ = inl _ |- _ =>
                by apply insert_admin_inl in H as [_ ?]
            end).
  all: right;
       match goal with
       | H : insert_entry _ _ _ _ _ = inl _ |- _ =>
           unfold insert_entry in H; rewrite committed_elsewhere_nil in H;
           match type of H with
           | context [entry_by_username ?d ?n] =>
               destruct (entry_by_username d n) eqn:?; simplify_eq
           end
       end.
  all: eexists; cbn [waitlist_entries committed_elsewhere wanted_username];
       rewrite app_nil_r; split; [reflexivity|]; split; [done|].
  all: unfold well_formed; cbn [wanted_username password];
       split; [by eapply normalized_is_fixed|];
       apply generate_password_in_chars.
Qed.

(** X26.  Handles stay unique: when no two rows share a handle before the
    loop, none do after it. *)
Theorem usernames_stay_unique api (inbound : list (Update * Env))
    (w : World) :
  NoDup (map wanted_username (waitlist_entries (db w))) ->
  NoDup (map wanted_username (waitlist_entries (db (run api inbound w).2))).
Proof.
  intros Hw.
  apply (run_invariant api (fun _ => True)
           (fun w => NoDup (map wanted_username (waitlist_entries (db w)))));
    [|by apply Forall_forall|done].
  intros env update w0 _ Hnodup.
  destruct (handle_update_rows api env update w0)
    as [Heq | (row & Heq & Hfree & _)]; rewrite Heq; [done|].
  rewrite map_app. apply NoDup_app. split; [done|]. split.
  - intros name Hin ->%list_elem_of_singleton.
    by apply entry_by_username_None in Hfree.
  - apply NoDup_singleton.
Qed.

(** X27.  Every row the loop adds holds a handle in normal form and a
    password of 12 characters from the alphabet of [generate_password]. *)
Theorem rows_stay_well_formed api (inbound : list (Update * Env))
    (w : World) :
  Forall well_formed (waitlist_entries (db w)) ->
  Forall well_formed (waitlist_entries (db (run api inbound w).2)).
Proof.
  intros Hw.
  apply (run_invariant api (fun _ => True)
           (fun w => Forall well_formed (waitlist_entries (db w))));
    [|by apply Forall_forall|done].
  intros env update w0 _ Hall.
  destruct (handle_update_rows api env update w0)
    as [Heq | (row & Heq & _ & Hrow)]; rewrite Heq; [done|].
  apply Forall_app. split; [done|by constructor].
Qed.

(** X28.  Rows are only ever appended: the tables before the loop are
    prefixes of the tables after it. *)
Theorem tables_only_grow api (inbound : list (Update * Env)) (w : World) :
  waitlist_entries (db w) `prefix_of`
    waitlist_entries (db (run api inbound w).2)
  /\ admins (db w) `prefix_of` admins (db (run api inbound w).2).
Proof.
  apply (run_invariant api (fun _ => True)
           (fun w' => waitlist_entries (db w) `prefix_of`
                        waitlist_entries (db w')
                      /\ admins (db w) `prefix_of` admins (db w')));
    [|by apply Forall_forall|done].
  intros env update w0 _ [Hrows Hadmins]. split.
  - destruct (handle_update_rows api env update w0)
      as [Heq | (row & Heq & _)]; rewrite Heq; [done|].
    etrans; [exact Hrows|]. by apply prefix_app_r.
  - destruct (handle_update_admins api [] env update w0)
      as [Heq | (Hzero & m & uid & _ & _ & Heq)]; rewrite Heq; [done|].
    unfold admin_count in Hzero. apply nil_length_inv in Hzero.
    etrans; [exact Hadmins|]. rewrite Hzero. apply prefix_nil.
Qed.

Lemma usernames_stay_unique_witness :
  NoDup (map wanted_username
           (waitlist_entries (db (run reliable_api two_senders initial).2))).
Proof.
  apply (usernames_stay_unique reliable_api two_senders initial).
  apply NoDup_nil_2.
Defined.

Lemma rows_stay_well_formed_witness :
  Forall well_formed
    (waitlist_entries (db (run reliable_api two_senders initial).2)).
Proof.
  apply (rows_stay_well_formed reliable_api two_senders initial).
  apply Forall_nil_2.
Defined.
